(** * PaGMO: migration selection policy, DTLZ3 problem and archipelago

    A shallow embedding of the PaGMO sources that the specification of the
    archipelago coordinator talks about:

    - [MigrationSelectionPolicy::getNumberOfIndividualsToMigrate]
      (the tail of [src/problem/dtlz3.cpp]),
    - the constructor [dtlz3::dtlz3], the distance function
      [dtlz3::g_func] and the objective function [dtlz3::objfun_impl]
      ([src/problem/dtlz3.cpp]), with the functions of [<cmath>] as
      parameters,
    - the declarations of [class archipelago] ([src/archipelago.h]): its
      enumerations, its container types, its data members and the default
      arguments of its constructors.

    The member functions of [archipelago] are declared in the header and
    defined elsewhere; what they do is taken from the specification, and
    every definition that is says so.

    C++ [double] values are IEEE-754 binary64 numbers, taken from the
    Standard Library's [SpecFloat]; [int] is 32 bits wide and [size_t] 64,
    both are integers of [Z] with their ranges and wrap-around written
    out. *)

From Stdlib Require Import ZArith List Bool Lia String.
From Stdlib Require Import Floats.SpecFloat.
From stdpp Require Import gmap.

Import ListNotations.
Local Open Scope Z_scope.

(** ** Machine integers *)

Module MachineInt.

Definition INT_MIN : Z := - 2 ^ 31.
Definition INT_MAX : Z := 2 ^ 31 - 1.
Definition SIZE_MAX : Z := 2 ^ 64 - 1.

Definition in_int (z : Z) : bool := (INT_MIN <=? z) && (z <=? INT_MAX).
Definition in_size_t (z : Z) : bool := (0 <=? z) && (z <=? SIZE_MAX).

(** Conversion of an integer to [size_t]: reduction modulo 2^64. *)
Definition to_size_t (z : Z) : Z := z mod 2 ^ 64.

(** Conversion of an integer to [int]: the value congruent to it
    modulo 2^32 that lies in the range of [int]. *)
Definition to_int (z : Z) : Z := (z + 2 ^ 31) mod 2 ^ 32 - 2 ^ 31.

End MachineInt.

(** ** Doubles *)

Module Double.

Definition prec : Z := 53.
Definition emax : Z := 1024.

(** A [double] is a [spec_float]; the values a C++ [double] can hold are
    the ones for which [valid] answers [true]. *)
Definition double : Type := spec_float.

Definition valid (x : double) : bool := valid_binary prec emax x.

(** The literals [0.0] and [1.0]. *)
Definition zero : double := S754_zero false.
Definition one : double := S754_finite false 4503599627370496 (-52).

(** [x < y] and [x > y] on doubles (both false when an operand is NaN). *)
Definition ltb (x y : double) : bool := SFltb x y.
Definition gtb (x y : double) : bool := SFltb y x.

(** [x * y], rounded to nearest even. *)
Definition mul (x y : double) : double := SFmul prec emax x y.

(** [(double) n] for an integer [n], rounded to nearest even. *)
Definition of_Z (n : Z) : double := binary_normalize prec emax n 0 false.

(** The integer part of a finite double (rounding toward zero). *)
Definition trunc (x : double) : option Z :=
  match x with
  | S754_zero _ => Some 0
  | S754_finite s m e =>
      Some (cond_Zopp s (if 0 <=? e then Zpos m * 2 ^ e
                         else Zpos m / 2 ^ (- e)))
  | S754_infinity _ | S754_nan => None
  end.

(** [(int) x]: the integer part of [x] when it is representable as an
    [int]; the conversion is undefined otherwise (NaN, infinities and
    values out of range). *)
Definition to_int (x : double) : option Z :=
  match trunc x with
  | Some z => if MachineInt.in_int z then Some z else None
  | None => None
  end.

End Double.

(** ** Results of calls that may throw *)

Inductive exception : Type :=
| assertion_error (what : string)
| value_error (what : string).

(** A call returns a value, throws, or has no defined behaviour. *)
Inductive outcome (A : Type) : Type :=
| Returns (a : A)
| Throws (e : exception)
| Undefined.

Arguments Returns {A} a.
Arguments Throws {A} e.
Arguments Undefined {A}.

(** ** Individuals and populations *)

(** An individual: decision vector, fitness vector, constraint vector. *)
Record Individual : Type := mkIndividual {
  cur_x : list Double.double;
  cur_f : list Double.double;
  cur_c : list Double.double
}.

Record Population : Type := mkPopulation {
  pop_container : list Individual
}.

(** [population.size()]. *)
Definition size (population : Population) : Z :=
  Z.of_nat (List.length (pop_container population)).

(** ** Migration selection policy *)

Record MigrationSelectionPolicy : Type := mkPolicy {
  migrationRateAbs : Z;                (* int *)
  migrationRateFrac : Double.double    (* double *)
}.

Definition getNumberOfIndividualsToMigrate
    (self : MigrationSelectionPolicy) (population : Population) : outcome Z :=
  if migrationRateAbs self <? 0 then
    if Double.gtb (migrationRateFrac self) Double.one then
      Throws (assertion_error "Fractional migration rate is grater than 1!")
    else
      match Double.to_int
              (Double.mul (migrationRateFrac self)
                          (Double.of_Z (size population))) with
      | Some r => Returns r
      | None => Undefined
      end
  else
    if size population <? migrationRateAbs self then
      Throws (assertion_error "Absolute migration rate exceeds population size!")
    else
      Returns (migrationRateAbs self).

(** ** The DTLZ3 problem *)

Module Problem.

(** Modelled from the spec: [problem::base], whose header and
    implementation are not part of the sources.  A problem declares its
    decision, integer and objective dimensions and its bounds; the
    constructor [base(n, ni, nf)] takes [int] dimensions and allocates one
    lower and one upper bound per decision variable. *)
Record base : Type := mkBase {
  m_dimension : Z;
  m_i_dimension : Z;
  m_f_dimension : Z;
  m_lb : list Double.double;
  m_ub : list Double.double
}.

Definition base_ctor (n ni nf : Z) : base :=
  mkBase n ni nf (repeat Double.zero (Z.to_nat n))
                 (repeat Double.zero (Z.to_nat n)).

Definition get_dimension (p : base) : Z := m_dimension p.
Definition get_i_dimension (p : base) : Z := m_i_dimension p.
Definition get_f_dimension (p : base) : Z := m_f_dimension p.
Definition get_lb (p : base) : list Double.double := m_lb p.
Definition get_ub (p : base) : list Double.double := m_ub p.

(** Modelled from the spec: [base::set_lb(double)] and
    [base::set_ub(double)] give every coordinate the same bound. *)
Definition set_lb (value : Double.double) (p : base) : base :=
  mkBase (m_dimension p) (m_i_dimension p) (m_f_dimension p)
         (map (fun _ => value) (m_lb p)) (m_ub p).

Definition set_ub (value : Double.double) (p : base) : base :=
  mkBase (m_dimension p) (m_i_dimension p) (m_f_dimension p)
         (m_lb p) (map (fun _ => value) (m_ub p)).

(** [dtlz3::dtlz3(int k, fitness_vector::size_type fdim)]
    [: base(k + fdim - 1, 0, fdim)], with the body
    [set_lb(0.0); set_ub(1.0);].  The sum is computed in [size_t] (the
    [int] operands are converted first) and the arguments are then
    converted to the [int] parameters of [base]. *)
Definition dtlz3 (k fdim : Z) : base :=
  let n := MachineInt.to_size_t
             (MachineInt.to_size_t (MachineInt.to_size_t k + fdim)
              - MachineInt.to_size_t 1) in
  set_ub Double.one
    (set_lb Double.zero
       (base_ctor (MachineInt.to_int n) 0 (MachineInt.to_int fdim))).

End Problem.

(** ** The archipelago *)

Module Archipelago.

(** *** Declarations of [src/archipelago.h] *)

Inductive distribution_type : Type := point_to_point | broadcast.
Inductive migration_direction : Type := source | destination.

(** [migr_hist_item]: the tuple (n_individuals, orig_island, dest_island). *)
Definition migr_hist_item : Type := (nat * nat * nat)%type.
Definition migr_hist_type : Type := list migr_hist_item.

Definition n_individuals (it : migr_hist_item) : nat := fst (fst it).
Definition orig_island (it : migr_hist_item) : nat := snd (fst it).
Definition dest_island (it : migr_hist_item) : nat := snd it.

(** [migration_map_type]: a hash map whose values are hash maps from
    island indices to vectors of individuals. *)
Abbreviation migration_map_type := (gmap nat (gmap nat (list Individual))).

(** The spec's error kinds of the coordinator. *)
Inductive error : Type :=
| configuration_error
| state_error
| ownership_error.

Inductive result (A : Type) : Type :=
| Done (a : A)
| Failed (e : error).

Arguments Done {A} a.
Arguments Failed {A} e.

(** *** Topology *)

(** Modelled from the spec: the topology interface ([topology/base.h] and
    [topology/unconnected.h] are not part of the sources).  A topology is
    a graph over the indices [0 .. num_vertices - 1]; [push_back] adds the
    vertex of the next index and wires it the way the concrete topology
    prescribes ([connect]); [get_neighbors] answers a set of indices. *)
Record topology : Type := mkTopology {
  num_vertices : nat;
  adjacency : gmap nat (gset nat);
  connect : nat -> gmap nat (gset nat) -> gmap nat (gset nat)
}.

Definition get_num_vertices (t : topology) : nat := num_vertices t.

Definition vertices (t : topology) : gset nat := set_seq 0 (num_vertices t).

Definition get_neighbors (t : topology) (v : nat) : gset nat :=
  default ∅ (adjacency t !! v).

Definition topology_push_back (t : topology) : topology :=
  mkTopology (S (num_vertices t))
             (connect t (num_vertices t) (adjacency t))
             (connect t).

(** Modelled from the spec: [topology::unconnected], the topology without
    edges. *)
Definition unconnected : topology :=
  mkTopology 0 ∅ (fun _ adj => adj).

(** *** Islands *)

(** Modelled from the spec: the island interface ([island.h] is not part
    of the sources).  An island owns a population; its selection policy
    chooses emigrants, its replacement policy integrates immigrants and
    answers how many it took, its algorithm evolves the population for one
    epoch.  [isl_make p a m seed] is [island(p, a, m)] with the random
    population that [seed] determines. *)
Class Island (island : Type) : Type := {
  isl_population : island -> Population;
  isl_compatible : island -> island -> bool;
  isl_attached : island -> bool;
  isl_attach : island -> island;
  isl_select : island -> list Individual;
  isl_assimilate : island -> list Individual -> island * nat;
  isl_evolve : island -> island;
  isl_make : Problem.base -> (Population -> Population) -> nat -> nat -> island
}.

(** *** The class [archipelago] *)

(** The data members of the class.  [m_islands_sync_point] holds the
    party count of the start barrier when there is one; the generators
    [m_drng] and [m_urng] are represented by the random choices that the
    migration hooks receive, the mutex [m_migr_mutex] by the hooks being
    atomic steps.  [m_busy] is what [busy()] answers. *)
Record archipelago (island : Type) : Type := mkArchipelago {
  m_container : list island;
  m_islands_sync_point : option nat;
  m_topology : topology;
  m_dist_type : distribution_type;
  m_migr_dir : migration_direction;
  m_migr_map : migration_map_type;
  m_migr_hist : migr_hist_type;
  m_busy : bool
}.

Arguments mkArchipelago {island}.
Arguments m_container {island}.
Arguments m_islands_sync_point {island}.
Arguments m_topology {island}.
Arguments m_dist_type {island}.
Arguments m_migr_dir {island}.
Arguments m_migr_map {island}.
Arguments m_migr_hist {island}.
Arguments m_busy {island}.

Section Coordinator.

Context {island : Type} `{Island island}.

Definition get_size (a : archipelago island) : nat :=
  List.length (m_container a).

Definition busy (a : archipelago island) : bool := m_busy a.

(** **** Constructors

    The header gives the trailing parameters default arguments:
    [dt = point_to_point], [md = destination] and, for the constructor
    of [n] islands, [t = topology::unconnected()].  An omitted argument
    is [None]. *)

Definition default_dt : distribution_type := point_to_point.
Definition default_md : migration_direction := destination.
Definition default_t : topology := unconnected.

(** [archipelago(distribution_type dt, migration_direction md)].
    Modelled from the spec: an empty archipelago. *)
Definition archipelago_ctor
    (dt : option distribution_type) (md : option migration_direction)
    : archipelago island :=
  mkArchipelago [] None unconnected
                (default default_dt dt) (default default_md md) ∅ [] false.

(** [archipelago(const topology::base &t, dt, md)].
    Modelled from the spec: an empty archipelago bound to a topology. *)
Definition archipelago_ctor_topology
    (t : topology)
    (dt : option distribution_type) (md : option migration_direction)
    : archipelago island :=
  mkArchipelago [] None t
                (default default_dt dt) (default default_md md) ∅ [] false.

(** [reset_barrier(n)]. *)
Definition reset_barrier (n : nat) : option nat :=
  match n with
  | O => None
  | S _ => Some n
  end.

(** [archipelago(p, a, n, m, t, dt, md)].
    Modelled from the spec: an archipelago of [n] islands, each with a
    fresh population of [m] random individuals on the problem [p] and
    its own copy of the algorithm [a]; every island gets its vertex in
    the topology.  The counts are natural numbers (the header declares
    them [int]; the spec is silent on negative counts). *)
Definition archipelago_ctor_islands
    (p : Problem.base) (a : Population -> Population) (n m : nat)
    (t : option topology)
    (dt : option distribution_type) (md : option migration_direction)
    : archipelago island :=
  mkArchipelago
    (map (fun seed => isl_attach (isl_make p a m seed)) (seq 0 n))
    (reset_barrier n)
    (Nat.iter n topology_push_back (default default_t t))
    (default default_dt dt) (default default_md md) ∅ [] false.

(** **** Operations of the coordinator *)

(** Modelled from the spec: [push_back(island)]. *)
Definition push_back (isl : island) (a : archipelago island)
    : result (archipelago island) :=
  if m_busy a then Failed state_error
  else if isl_attached isl then Failed ownership_error
  else if negb (forallb (fun other => isl_compatible other isl)
                        (m_container a))
  then Failed configuration_error
  else Done (mkArchipelago
               (m_container a ++ [isl_attach isl])
               (reset_barrier (S (get_size a)))
               (topology_push_back (m_topology a))
               (m_dist_type a) (m_migr_dir a)
               (m_migr_map a) (m_migr_hist a) (m_busy a)).

(** Modelled from the spec: [set_topology(t)]. *)
Definition set_topology (t : topology) (a : archipelago island)
    : result (archipelago island) :=
  if m_busy a then Failed state_error
  else if negb (Nat.eqb (get_num_vertices t) (get_size a))
  then Failed configuration_error
  else Done (mkArchipelago
               (m_container a) (m_islands_sync_point a) t
               (m_dist_type a) (m_migr_dir a)
               (m_migr_map a) (m_migr_hist a) (m_busy a)).

(** Modelled from the spec: [evolve(n)] starts one task per island and
    returns at once; it fails on a busy archipelago. *)
Definition evolve (n : nat) (a : archipelago island)
    : result (archipelago island) :=
  if m_busy a then Failed state_error
  else Done (mkArchipelago
               (m_container a) (m_islands_sync_point a) (m_topology a)
               (m_dist_type a) (m_migr_dir a)
               (m_migr_map a) (m_migr_hist a) true).

(** Modelled from the spec: [join()] returns when every island task has
    completed. *)
Definition join (a : archipelago island) : archipelago island :=
  mkArchipelago
    (m_container a) (m_islands_sync_point a) (m_topology a)
    (m_dist_type a) (m_migr_dir a)
    (m_migr_map a) (m_migr_hist a) false.

(** Modelled from the spec: [clear_migr_history()]. *)
Definition clear_migr_history (a : archipelago island)
    : archipelago island :=
  mkArchipelago
    (m_container a) (m_islands_sync_point a) (m_topology a)
    (m_dist_type a) (m_migr_dir a)
    (m_migr_map a) [] (m_busy a).

(** **** The migration store *)

(** Modelled from the spec: [publish(owner, from, individuals)] inserts
    or replaces [outer[owner][from]]. *)
Definition publish (owner from : nat) (individuals : list Individual)
    (outer : migration_map_type) : migration_map_type :=
  <[owner := <[from := individuals]> (default ∅ (outer !! owner))]> outer.

(** Modelled from the spec: [consume(owner)] extracts [outer[owner]] and
    leaves it empty. *)
Definition consume (owner : nat) (outer : migration_map_type)
    : gmap nat (list Individual) * migration_map_type :=
  (default ∅ (outer !! owner), <[owner := ∅]> outer).

(** Modelled from the spec: [peek(owner, from)], a read that changes
    nothing. *)
Definition peek (owner from : nat) (outer : migration_map_type)
    : list Individual :=
  match outer !! owner with
  | Some inner => default [] (inner !! from)
  | None => []
  end.

(** **** The migration hooks *)

Definition with_migration
    (a : archipelago island) (c : list island)
    (mm : migration_map_type) (h : migr_hist_type) : archipelago island :=
  mkArchipelago c (m_islands_sync_point a) (m_topology a)
                (m_dist_type a) (m_migr_dir a) mm h (m_busy a).

(** Modelled from the spec: the replacement policy of [dst] takes the
    batches one by one; each batch yields the item (count, origin, dst). *)
Definition integrate (dst : nat) (isl : island)
    (batches : list (nat * list Individual)) : island * migr_hist_type :=
  foldl (fun (acc : island * migr_hist_type)
             (batch : nat * list Individual) =>
           let (isl', count) := isl_assimilate (fst acc) (snd batch) in
           (isl', snd acc ++ [(count, fst batch, dst)]))
        (isl, []) batches.

(** Modelled from the spec: the pre-evolution hook of island [dst].
    [subset u offer] is the random subset taken from the offer of the
    neighbour [u] under destination-initiated migration. *)
Definition pre_evolution (dst : nat)
    (subset : nat -> list Individual -> list Individual)
    (a : archipelago island) : archipelago island :=
  match m_container a !! dst with
  | None => a
  | Some isl =>
      match m_migr_dir a with
      | source =>
          let (incoming, mm) := consume dst (m_migr_map a) in
          let (isl', _) := integrate dst isl (map_to_list incoming) in
          with_migration a (<[dst := isl']> (m_container a)) mm
                         (m_migr_hist a)
      | destination =>
          let batches :=
            map (fun u => (u, subset u (peek u u (m_migr_map a))))
                (elements (get_neighbors (m_topology a) dst)) in
          let (isl', h) := integrate dst isl batches in
          with_migration a (<[dst := isl']> (m_container a))
                         (m_migr_map a) (m_migr_hist a ++ h)
      end
  end.

(** Modelled from the spec: the post-evolution hook of island [src].
    [rnd] is the draw that chooses the destination of a point-to-point
    migration. *)
Definition post_evolution (src : nat) (rnd : nat)
    (a : archipelago island) : archipelago island :=
  match m_container a !! src with
  | None => a
  | Some isl =>
      let emigrants := isl_select isl in
      match elements (get_neighbors (m_topology a) src) with
      | [] => a
      | d0 :: ds =>
          let neighbours := d0 :: ds in
          match m_migr_dir a with
          | destination =>
              with_migration a (m_container a)
                (publish src src emigrants (m_migr_map a))
                (m_migr_hist a)
          | source =>
              match m_dist_type a with
              | point_to_point =>
                  let d := nth (rnd mod List.length neighbours)
                               neighbours d0 in
                  with_migration a (m_container a)
                    (publish d src emigrants (m_migr_map a))
                    (m_migr_hist a ++ [(List.length emigrants, src, d)])
              | broadcast =>
                  with_migration a (m_container a)
                    (foldl (fun mm d => publish d src emigrants mm)
                           (m_migr_map a) neighbours)
                    (m_migr_hist a
                       ++ map (fun d => (List.length emigrants, src, d))
                              neighbours)
              end
          end
      end
  end.

(** Modelled from the spec: one epoch of the algorithm on island [i]. *)
Definition algorithm_step (i : nat) (a : archipelago island)
    : archipelago island :=
  with_migration a (alter isl_evolve i (m_container a))
                 (m_migr_map a) (m_migr_hist a).

(** **** Runs

    Modelled from the spec: what happens to an archipelago is a sequence
    of events, the calls of the coordinator's operations and, for the
    island tasks, the hooks and algorithm steps in the order in which they
    take the migration mutex.  A call that fails leaves the archipelago as
    it was.  Every interleaving of the island tasks is such a sequence. *)
Inductive event : Type :=
| EvPushBack (isl : island)
| EvSetTopology (t : topology)
| EvEvolve (n : nat)
| EvJoin
| EvClearHistory
| EvPreEvolution (dst : nat)
                 (subset : nat -> list Individual -> list Individual)
| EvAlgorithm (i : nat)
| EvPostEvolution (src : nat) (rnd : nat).

Definition or_unchanged (a : archipelago island)
    (r : result (archipelago island)) : archipelago island :=
  match r with
  | Done a' => a'
  | Failed _ => a
  end.

Definition apply_event (a : archipelago island) (e : event)
    : archipelago island :=
  match e with
  | EvPushBack isl => or_unchanged a (push_back isl a)
  | EvSetTopology t => or_unchanged a (set_topology t a)
  | EvEvolve n => or_unchanged a (evolve n a)
  | EvJoin => join a
  | EvClearHistory => clear_migr_history a
  | EvPreEvolution dst subset => pre_evolution dst subset a
  | EvAlgorithm i => algorithm_step i a
  | EvPostEvolution src rnd => post_evolution src rnd a
  end.

Definition run (a : archipelago island) (es : list event)
    : archipelago island :=
  foldl apply_event a es.

Definition is_set_topology (e : event) : bool :=
  match e with
  | EvSetTopology _ => true
  | _ => false
  end.

Definition is_clear_history (e : event) : bool :=
  match e with
  | EvClearHistory => true
  | _ => false
  end.

(** **** Predicates of the specification *)

(** Modelled from the spec: step 3 of the pre-evolution hook (4.1).  The
    replacement policy of [dst] is handed the batches one after the other;
    each batch leaves the item (count, origin, [dst]), where count is the
    number of individuals that the policy took from the batch. *)
Fixpoint arrivals (dst : nat) (isl : island)
    (batches : list (nat * list Individual)) : migr_hist_type :=
  match batches with
  | [] => []
  | (origin, candidates) :: rest =>
      (snd (isl_assimilate isl candidates), origin, dst)
      :: arrivals dst (fst (isl_assimilate isl candidates)) rest
  end.

(** Modelled from the spec: the destinations of what [src] publishes under
    source-initiated migration (4.3): every neighbour for a broadcast, the
    neighbour that [rnd] draws for a point-to-point migration. *)
Definition placements (a : archipelago island) (src rnd : nat) : list nat :=
  let neighbours := elements (get_neighbors (m_topology a) src) in
  match m_dist_type a with
  | broadcast => neighbours
  | point_to_point =>
      match neighbours with
      | [] => []
      | d0 :: _ => [nth (rnd mod List.length neighbours) neighbours d0]
      end
  end.

(** Modelled from the spec: the items that an event adds to the history,
    in the order in which it adds them.  Under source-initiated migration
    the post-evolution hook of [src] records one item (number of emigrants,
    [src], destination) for each placement (4.1, post-evolution hook, step
    3); under destination-initiated migration the pre-evolution hook of
    [dst] records one item for each neighbour whose offer it integrates
    (4.1, pre-evolution hook, step 3); no other event records anything. *)
Definition recorded (a : archipelago island) (e : event) : migr_hist_type :=
  match e with
  | EvPostEvolution src rnd =>
      match m_migr_dir a, m_container a !! src with
      | source, Some isl =>
          map (fun d => (List.length (isl_select isl), src, d))
              (placements a src rnd)
      | _, _ => []
      end
  | EvPreEvolution dst subset =>
      match m_migr_dir a, m_container a !! dst with
      | destination, Some isl =>
          arrivals dst isl
            (map (fun u => (u, subset u (peek u u (m_migr_map a))))
                 (elements (get_neighbors (m_topology a) dst)))
      | _, _ => []
      end
  | _ => []
  end.

(** The items that a sequence of events adds to the history: those of the
    first event, then those of the events after it. *)
Fixpoint arrival_log (a : archipelago island) (es : list event)
    : migr_hist_type :=
  match es with
  | [] => []
  | e :: es' => recorded a e ++ arrival_log (apply_event a e) es'
  end.

(** An archipelago in which nothing has migrated and nothing can: its
    topology has no edges and adds none, its history is empty and no
    individuals are staged in its store. *)
Definition isolated (a : archipelago island) : Prop :=
  adjacency (m_topology a) = ∅
  /\ connect (m_topology a) = connect unconnected
  /\ m_migr_hist a = []
  /\ forall v inner, m_migr_map a !! v = Some inner -> inner = ∅.

End Coordinator.

(** The store as destination-initiated migration keeps it: the entry of an
    island [v] holds exactly one batch, filed under [v] itself. *)
Definition single_own_entry (outer : migration_map_type) : Prop :=
  forall v inner,
    outer !! v = Some inner ->
    exists individuals, inner = {[ v := individuals ]}.

End Archipelago.

(** ** Concrete inputs *)

Module Inputs.

(** The doubles -0.5 and 0.3 (the binary64 number nearest to 0.3). *)
Definition minus_half : Double.double :=
  S754_finite true 4503599627370496 (-53).
Definition three_tenths : Double.double :=
  S754_finite false 5404319552844595 (-54).

Definition individual0 : Individual := mkIndividual [] [] [].

(** A population of [n] individuals. *)
Definition population_of (n : nat) : Population :=
  mkPopulation (repeat individual0 n).

(** A policy with a negative fractional rate and no absolute rate. *)
Definition negative_fraction : MigrationSelectionPolicy :=
  mkPolicy (-1) minus_half.

(** A policy that migrates three tenths of the population. *)
Definition fraction_policy : MigrationSelectionPolicy :=
  mkPolicy (-1) three_tenths.

(** Islands that are just their populations: every candidate is taken in,
    the whole population is offered, the algorithm changes nothing. *)
#[global] Instance population_island : Archipelago.Island Population := {|
  Archipelago.isl_population := fun p => p;
  Archipelago.isl_compatible := fun _ _ => true;
  Archipelago.isl_attached := fun _ => false;
  Archipelago.isl_attach := fun p => p;
  Archipelago.isl_select := fun p => pop_container p;
  Archipelago.isl_assimilate :=
    fun p inds => (mkPopulation (pop_container p ++ inds), List.length inds);
  Archipelago.isl_evolve := fun p => p;
  Archipelago.isl_make := fun _ _ m _ => population_of m
|}.

(** A topology that links every new vertex with all earlier ones. *)
Definition fully_connected : Archipelago.topology :=
  Archipelago.mkTopology 0 ∅
    (fun n adj =>
       <[n := set_seq 0 n]> ((fun s : gset nat => s ∪ {[n]}) <$> adj)).

(** An algorithm that leaves the population as it is. *)
Definition identity_algorithm : Population -> Population := fun p => p.

(** Two islands of one individual each, linked to each other, with the
    default migration attributes. *)
Definition two_linked_islands : Archipelago.archipelago Population :=
  Archipelago.archipelago_ctor_islands
    (Problem.dtlz3 5 3) identity_algorithm 2 1
    (Some fully_connected) None None.

(** Three islands built without a topology, migrating by broadcast from the
    source. *)
Definition three_default_islands : Archipelago.archipelago Population :=
  Archipelago.archipelago_ctor_islands
    (Problem.dtlz3 5 3) identity_algorithm 3 1
    None (Some Archipelago.broadcast) (Some Archipelago.source).

(** Island 0 finishes an epoch, island 1 starts and finishes one. *)
Definition one_round : list (Archipelago.event (island := Population)) :=
  [Archipelago.EvPostEvolution 0 0;
   Archipelago.EvPreEvolution 1 (fun _ offer => offer);
   Archipelago.EvPostEvolution 1 0].

End Inputs.

(** ** Predicates of the specification *)

(** What C1 asks of the rates and the population for an error: the
    fractional rate is in use and lies outside [0,1], or the absolute rate is
    in use and exceeds the population size. *)
Definition rates_out_of_range
    (self : MigrationSelectionPolicy) (population : Population) : Prop :=
  (migrationRateAbs self < 0
   /\ (Double.ltb (migrationRateFrac self) Double.zero = true
       \/ Double.gtb (migrationRateFrac self) Double.one = true))
  \/ (0 <= migrationRateAbs self /\ size population < migrationRateAbs self).

(** What the code checks: the fractional rate is in use and greater than
    1.0, or the absolute rate is in use and exceeds the population size. *)
Definition rates_rejected
    (self : MigrationSelectionPolicy) (population : Population) : Prop :=
  (migrationRateAbs self < 0
   /\ Double.gtb (migrationRateFrac self) Double.one = true)
  \/ (0 <= migrationRateAbs self /\ size population < migrationRateAbs self).


(** ** The objective function of DTLZ3 *)

Module Dtlz3.

(** *** Arithmetic on doubles *)

Definition add (x y : Double.double) : Double.double :=
  SFadd Double.prec Double.emax x y.
Definition sub (x y : Double.double) : Double.double :=
  SFsub Double.prec Double.emax x y.
Definition mul (x y : Double.double) : Double.double :=
  SFmul Double.prec Double.emax x y.
Definition div (x y : Double.double) : Double.double :=
  SFdiv Double.prec Double.emax x y.

(** The literals [0.5], [2.0] and [100.0], and the value of
    [boost::math::constants::pi<double>()], the double nearest to pi. *)
Definition half : Double.double := S754_finite false 4503599627370496 (-53).
Definition two : Double.double := S754_finite false 4503599627370496 (-51).
Definition hundred : Double.double :=
  S754_finite false 7036874417766400 (-46).
Definition pi : Double.double := S754_finite false 7074237752028440 (-51).

(** The functions of [<cmath>] that the file calls.  The exponent of [pow]
    is the [int] literal [2]. *)
Class Libm : Type := {
  cos : Double.double -> Double.double;
  sin : Double.double -> Double.double;
  pow : Double.double -> Z -> Double.double
}.

(** *** Executions *)

(** A call completes, stops at a failed assertion, or reads or writes a
    vector outside its bounds (which [operator[]] does not check). *)
Inductive execution (A : Type) : Type :=
| Completed (a : A)
| AssertionFailed
| OutOfBounds.

Arguments Completed {A} a.
Arguments AssertionFailed {A}.
Arguments OutOfBounds {A}.

#[global] Instance execution_bind : MBind execution :=
  fun A B (k : A -> execution B) (m : execution A) =>
    match m with
    | Completed a => k a
    | AssertionFailed => AssertionFailed
    | OutOfBounds => OutOfBounds
    end.

(** [pagmo_assert] is a macro of a header that is not among the sources; it
    is [assert]: with [checked] a false condition stops the program, without
    it (NDEBUG) the condition is not looked at. *)
Definition pagmo_assert (checked condition : bool) : execution unit :=
  if checked && negb condition then AssertionFailed else Completed tt.

(** [v.size()], [v[i]] as a value and [v[i] = d]; indices are [size_t]
    values. *)
Definition vsize (v : list Double.double) : Z := Z.of_nat (List.length v).

Definition read (v : list Double.double) (i : Z) : execution Double.double :=
  if (0 <=? i) && (i <? vsize v) then
    match v !! Z.to_nat i with
    | Some d => Completed d
    | None => OutOfBounds
    end
  else OutOfBounds.

Definition write (v : list Double.double) (i : Z) (d : Double.double)
    : execution (list Double.double) :=
  if (0 <=? i) && (i <? vsize v) then Completed (<[Z.to_nat i := d]> v)
  else OutOfBounds.

(** [for (size_type i = first; i < bound; ++i) body]. *)
Definition for_loop {S : Type} (first bound : Z)
    (body : Z -> S -> execution S) (s : S) : execution S :=
  if bound <=? first then Completed s
  else
    fold_left (fun (acc : execution S) (n : nat) =>
                 s' ← acc; body (first + Z.of_nat n) s')
              (seq 0 (Z.to_nat (bound - first)))
              (Completed s).

Section ObjectiveFunction.

Context `{Libm}.

(** [dtlz3::g_func]. *)
Definition g_func (x : list Double.double) : Double.double :=
  let y :=
    fold_left
      (fun (y xi : Double.double) =>
         add y (sub (pow (sub xi half) 2)
                    (cos (mul (mul (Double.of_Z 20) pi) (sub xi half)))))
      x Double.zero in
  mul hundred (add y (Double.of_Z (vsize x))).

(** [dtlz3::objfun_impl].  The vector [f] is passed by reference: the
    function returns what it holds at the end. *)
Definition objfun_impl (checked : bool) (self : Problem.base)
    (f x : list Double.double) : execution (list Double.double) :=
  _ ← pagmo_assert checked (vsize f =? Problem.get_f_dimension self);
  _ ← pagmo_assert checked (vsize x =? Problem.get_dimension self);
  let pi_half := div pi two in
  x_M ← for_loop (MachineInt.to_size_t (vsize f - 1)) (vsize x)
          (fun i x_M => xi ← read x i; Completed (x_M ++ [xi])) [];
  let g := g_func x_M in
  f ← write f 0 (add Double.one g);
  f ← for_loop 0 (MachineInt.to_size_t (vsize f - 1))
        (fun i f =>
           f0 ← read f 0;
           xi ← read x i;
           write f 0 (mul f0 (cos (mul xi pi_half))))
        f;
  f ← for_loop 1 (MachineInt.to_size_t (vsize f - 1))
        (fun i f =>
           f ← write f i (add Double.one g);
           f ← for_loop 0 (MachineInt.to_size_t (vsize f - (i + 1)))
                 (fun j f =>
                    fi ← read f i;
                    xj ← read x j;
                    write f i (mul fi (cos (mul xj pi_half))))
                 f;
           fi ← read f i;
           xk ← read x (MachineInt.to_size_t (vsize f - (i + 1)));
           write f i (mul fi (sin (mul xk pi_half))))
        f;
  x0 ← read x 0;
  write f (MachineInt.to_size_t (vsize f - 1))
        (mul (add Double.one g) (sin (mul x0 pi_half))).

(** *** The shape functions in closed form *)

(** [start * cos (x_0 * pi/2) * ... * cos (x_(n-1) * pi/2)], multiplied
    from the left. *)
Definition cos_product (x : list Double.double) (n : nat)
    (start : Double.double) : Double.double :=
  fold_left (fun acc xj => mul acc (cos (mul xj (div pi two))))
            (firstn n x) start.

(** Objective [i] of [m] for the decision vector [x] and the distance [g]:
    the first is the product of [m - 1] cosines, the others the product of
    [m - 1 - i] cosines and one sine; with one objective only, that one is
    of the second kind. *)
Definition objective (m : nat) (x : list Double.double) (g : Double.double)
    (i : nat) : Double.double :=
  match i, m with
  | O, S (S _) => cos_product x (m - 1) (add Double.one g)
  | _, _ =>
      mul (cos_product x (m - 1 - i) (add Double.one g))
          (sin (mul (nth (m - 1 - i) x Double.zero) (div pi two)))
  end.

(** The objective vector in closed form: the distance is taken over the
    decision variables from index [m - 1] on. *)
Definition objectives (m : nat) (x : list Double.double)
    : list Double.double :=
  map (objective m x (g_func (skipn (m - 1) x))) (seq 0 m).

End ObjectiveFunction.

End Dtlz3.

(** *** Concrete inputs for the objective function *)

Module Dtlz3Inputs.

(** A stand-in for the math library: the first terms of the Taylor series
    for [cos] and [sin], and [pow] by repeated multiplication. *)
Definition taylor_libm : Dtlz3.Libm := {|
  Dtlz3.cos := fun d =>
    Dtlz3.sub Double.one (Dtlz3.mul Dtlz3.half (Dtlz3.mul d d));
  Dtlz3.sin := fun d => d;
  Dtlz3.pow := fun d n => Z.iter n (fun acc => Dtlz3.mul acc d) Double.one
|}.

(** Seven decision variables, all 0.5, and a fitness vector for three
    objectives. *)
Definition seven_halves : list Double.double := repeat Dtlz3.half 7.
Definition three_objectives : list Double.double := repeat Double.zero 3.

(** A fitness vector of the same size with other contents. *)
Definition three_ones : list Double.double := repeat Double.one 3.

(** Two decision vectors that differ in the last variable only: 1.0 and
    0.0, at the same distance from 0.5. *)
Definition six_halves_and_one : list Double.double :=
  repeat Dtlz3.half 6 ++ [Double.one].
Definition six_halves_and_zero : list Double.double :=
  repeat Dtlz3.half 6 ++ [Double.zero].

End Dtlz3Inputs.

(** ** Fractional rates that are powers of two *)

(** The double [2^(-j)], for [0 <= j <= 1022]: 1.0, 0.5, 0.25, ... *)
Definition two_to_minus (j : Z) : Double.double :=
  S754_finite false 4503599627370496 (-52 - j).

(** * Properties *)

(** ** The number of individuals to migrate *)

(** C1, as stated, fails: with no absolute rate and the fractional rate
    -0.5 on a population of ten, the rate lies outside [0,1] and yet no
    error is raised (the call returns -5). *)
Lemma negative_fraction_not_rejected :
  ~ ((exists e, getNumberOfIndividualsToMigrate
                  Inputs.negative_fraction (Inputs.population_of 10) = Throws e)
     <-> rates_out_of_range Inputs.negative_fraction (Inputs.population_of 10)).
Proof.
  intros [_ Hback].
  destruct Hback as [e He].
  - left. split; [reflexivity | left; reflexivity].
  - vm_compute in He. discriminate He.
Qed.

(** C1, amended: [getNumberOfIndividualsToMigrate] raises an assertion error
    if and only if the absolute rate is negative and the fractional rate is
    greater than 1.0, or the absolute rate is non-negative and exceeds the
    population size; in every other case no error is raised, and the call
    returns a count unless the product of the fractional rate and the
    population size has no representation as an [int]. *)
Theorem getNumberOfIndividualsToMigrate_throws_iff
    (self : MigrationSelectionPolicy) (population : Population) :
  ((exists e, getNumberOfIndividualsToMigrate self population = Throws e)
   <-> rates_rejected self population)
  /\ (~ rates_rejected self population ->
      (exists r, getNumberOfIndividualsToMigrate self population = Returns r)
      \/ (migrationRateAbs self < 0
          /\ Double.to_int
               (Double.mul (migrationRateFrac self)
                           (Double.of_Z (size population))) = None)).
Proof.
  unfold getNumberOfIndividualsToMigrate, rates_rejected.
  destruct (Z.ltb_spec (migrationRateAbs self) 0) as [Hneg | Hpos].
  - destruct (Double.gtb (migrationRateFrac self) Double.one) eqn:Hgt.
    + split.
      * split; [intros _; left; split; [assumption | reflexivity] | eauto].
      * intros Hno. exfalso. apply Hno. left. split; [assumption | reflexivity].
    + destruct (Double.to_int _) as [r |] eqn:Hconv.
      * split.
        -- split; [intros [e He]; discriminate He |].
           intros [[_ Hgt'] | [Hge _]]; [discriminate Hgt' | lia].
        -- intros _. left. eauto.
      * split.
        -- split; [intros [e He]; discriminate He |].
           intros [[_ Hgt'] | [Hge _]]; [discriminate Hgt' | lia].
        -- intros _. right. split; [assumption | reflexivity].
  - destruct (Z.ltb_spec (size population) (migrationRateAbs self))
      as [Hbig | Hfit].
    + split.
      * split; [intros _; right; split; assumption | eauto].
      * intros Hno. exfalso. apply Hno. right. split; assumption.
    + split.
      * split; [intros [e He]; discriminate He |].
        intros [[Hlt _] | [_ Hlt]]; lia.
      * intros _. left. eauto.
Qed.

(** C2: when [getNumberOfIndividualsToMigrate] returns, its result is the
    absolute migration rate if that rate is non-negative, and otherwise the
    integer part of the (double) product of the fractional rate and the
    population size. *)
Theorem getNumberOfIndividualsToMigrate_value
    (self : MigrationSelectionPolicy) (population : Population) (r : Z) :
  getNumberOfIndividualsToMigrate self population = Returns r ->
  (0 <= migrationRateAbs self -> r = migrationRateAbs self)
  /\ (migrationRateAbs self < 0 ->
      Double.trunc (Double.mul (migrationRateFrac self)
                               (Double.of_Z (size population))) = Some r).
Proof.
  unfold getNumberOfIndividualsToMigrate, Double.to_int.
  destruct (Z.ltb_spec (migrationRateAbs self) 0) as [Hneg | Hpos].
  - destruct (Double.gtb _ _); [discriminate |].
    destruct (Double.trunc _) as [z |]; [| discriminate].
    destruct (MachineInt.in_int z); [| discriminate].
    intros [= ->]. split; [lia | reflexivity].
  - destruct (size population <? migrationRateAbs self); [discriminate |].
    intros [= <-]. split; [reflexivity | lia].
Qed.

(** Three tenths of a population of ten: three individuals. *)
Lemma getNumberOfIndividualsToMigrate_value_witness :
  (0 <= migrationRateAbs Inputs.fraction_policy ->
   3 = migrationRateAbs Inputs.fraction_policy)
  /\ (migrationRateAbs Inputs.fraction_policy < 0 ->
      Double.trunc
        (Double.mul (migrationRateFrac Inputs.fraction_policy)
                    (Double.of_Z (size (Inputs.population_of 10)))) = Some 3).
Proof.
  apply (getNumberOfIndividualsToMigrate_value
           Inputs.fraction_policy (Inputs.population_of 10) 3).
  vm_compute. reflexivity.
Defined.

(** ** Rounding of doubles and the bound on the count *)

Lemma digits2_pos_bounds (m : positive) :
  2 ^ (Zpos (digits2_pos m) - 1) <= Zpos m < 2 ^ Zpos (digits2_pos m).
Proof.
  induction m as [m IH | m IH |]; cbn [digits2_pos].
  - rewrite Pos2Z.inj_succ. change (Zpos m~1) with (2 * Zpos m + 1).
    replace (Z.succ (Zpos (digits2_pos m)) - 1)
      with (Z.succ (Zpos (digits2_pos m) - 1)) by lia.
    rewrite !Z.pow_succ_r by lia.
    destruct IH as [Hlow Hhigh]. revert Hlow Hhigh.
    generalize (2 ^ (Zpos (digits2_pos m) - 1)) (2 ^ Zpos (digits2_pos m)).
    intros; lia.
  - rewrite Pos2Z.inj_succ. change (Zpos m~0) with (2 * Zpos m).
    replace (Z.succ (Zpos (digits2_pos m)) - 1)
      with (Z.succ (Zpos (digits2_pos m) - 1)) by lia.
    rewrite !Z.pow_succ_r by lia.
    destruct IH as [Hlow Hhigh]. revert Hlow Hhigh.
    generalize (2 ^ (Zpos (digits2_pos m) - 1)) (2 ^ Zpos (digits2_pos m)).
    intros; lia.
  - cbn. lia.
Qed.

Lemma Zdigits2_le (m n : Z) :
  0 <= m -> 0 <= n -> m < 2 ^ n -> Zdigits2 m <= n.
Proof.
  intros Hm Hn Hlt. destruct m as [| p | p]; cbn; [lia | | lia].
  destruct (digits2_pos_bounds p) as [Hlow _].
  destruct (Z_le_gt_dec (Zpos (digits2_pos p)) n) as [Hle | Hgt]; [exact Hle |].
  exfalso.
  assert (2 ^ n <= 2 ^ (Zpos (digits2_pos p) - 1))
    by (apply Z.pow_le_mono_r; lia).
  lia.
Qed.

Lemma iter_pos_nat {A : Type} (f : A -> A) (p : positive) (x : A) :
  SpecFloat.iter_pos f p x = Nat.iter (Pos.to_nat p) f x.
Proof.
  revert x. induction p as [p IH | p IH |]; intros x; cbn [SpecFloat.iter_pos].
  - rewrite !IH, Pos2Nat.inj_xI.
    rewrite <- Nat.iter_succ_r, <- Nat.iter_add. f_equal. lia.
  - rewrite !IH, Pos2Nat.inj_xO, <- Nat.iter_add. f_equal. lia.
  - reflexivity.
Qed.

(** One step of the shift of a non-negative mantissa. *)
Lemma shr_1_nonneg (m : Z) (r s : bool) :
  0 <= m ->
  shr_1 (Build_shr_record m r s)
  = Build_shr_record (m / 2) (Z.odd m) (r || s).
Proof.
  intros Hm. destruct m as [| p | p]; [reflexivity | | lia].
  destruct p as [p | p |]; cbn [shr_1].
  - f_equal. change (Zpos p~1) with (2 * Zpos p + 1).
    apply (Z.div_unique _ _ _ 1); lia.
  - f_equal. change (Zpos p~0) with (2 * Zpos p).
    apply (Z.div_unique _ _ _ 0); lia.
  - reflexivity.
Qed.

(** [k] steps of the shift divide the mantissa by [2^k]; the round and
    sticky bits are both clear when the division is exact. *)
Lemma shr_iter_nonneg (m0 : Z) (k : nat) :
  0 <= m0 ->
  let mrs := Nat.iter k shr_1 (Build_shr_record m0 false false) in
  shr_m mrs = m0 / 2 ^ Z.of_nat k
  /\ (m0 mod 2 ^ Z.of_nat k = 0 -> shr_r mrs = false /\ shr_s mrs = false).
Proof.
  intros Hm0. induction k as [| k IH]; cbn zeta in *.
  - cbn. rewrite Z.div_1_r. auto.
  - rewrite Nat.iter_succ.
    destruct (Nat.iter k shr_1 (Build_shr_record m0 false false))
      as [m r s] eqn:Hiter.
    cbn [shr_m shr_r shr_s] in IH. destruct IH as [Hm Hrs].
    assert (Hpos : 0 < 2 ^ Z.of_nat k) by (apply Z.pow_pos_nonneg; lia).
    assert (Hmnn : 0 <= m) by (rewrite Hm; apply Z.div_pos; lia).
    rewrite (shr_1_nonneg m r s Hmnn). cbn [shr_m shr_r shr_s].
    rewrite Nat2Z.inj_succ, Z.pow_succ_r by lia.
    split.
    + rewrite Hm, Z.div_div by lia. f_equal. lia.
    + intros Hmod.
      assert (Hdiv : m0 = 2 * 2 ^ Z.of_nat k * (m0 / (2 * 2 ^ Z.of_nat k))).
      { apply Z.div_exact; lia. }
      assert (Hmod' : m0 mod 2 ^ Z.of_nat k = 0).
      { rewrite Hdiv.
        replace (2 * 2 ^ Z.of_nat k * (m0 / (2 * 2 ^ Z.of_nat k)))
          with (2 * (m0 / (2 * 2 ^ Z.of_nat k)) * 2 ^ Z.of_nat k) by lia.
        apply Z.mod_mul. lia. }
      destruct (Hrs Hmod') as [-> ->]. split; [| reflexivity].
      rewrite Hm. rewrite Hdiv at 1.
      replace (2 * 2 ^ Z.of_nat k * (m0 / (2 * 2 ^ Z.of_nat k)))
        with (2 * (m0 / (2 * 2 ^ Z.of_nat k)) * 2 ^ Z.of_nat k) by lia.
      rewrite Z.div_mul by lia.
      rewrite Z.odd_mul. reflexivity.
Qed.

Lemma round_nearest_even_bounds (x : Z) (l : location) :
  x <= round_nearest_even x l <= x + 1.
Proof.
  destruct l as [| []]; cbn [round_nearest_even]; try lia.
  destruct (Z.even x); lia.
Qed.

Lemma fexp_nonpos (d : Z) : d <= 53 -> fexp 53 1024 d <= 0.
Proof. intros Hd. unfold fexp, emin. lia. Qed.

(** The shift to the exponent of the format, followed by rounding to
    nearest even, of a mantissa [m] at exponent [e]: when [m * 2^e] is at
    most the integer [K], so is the result at its new exponent. *)
Lemma shr_fexp_bound (m e K : Z) :
  0 <= m -> e <= 0 -> 0 <= K < 2 ^ 53 -> m <= K * 2 ^ (- e) ->
  snd (shr_fexp 53 1024 m e loc_Exact) <= 0
  /\ 0 <= shr_m (fst (shr_fexp 53 1024 m e loc_Exact))
  /\ shr_m (fst (shr_fexp 53 1024 m e loc_Exact))
     <= round_nearest_even
          (shr_m (fst (shr_fexp 53 1024 m e loc_Exact)))
          (loc_of_shr_record (fst (shr_fexp 53 1024 m e loc_Exact)))
     <= K * 2 ^ (- snd (shr_fexp 53 1024 m e loc_Exact)).
Proof.
  intros Hm He HK Hle.
  assert (Hpow : 0 < 2 ^ (- e)) by (apply Z.pow_pos_nonneg; lia).
  assert (Hdig : Zdigits2 m <= 53 - e).
  { apply Zdigits2_le; [lia | lia |].
    replace (53 - e) with (53 + - e) by lia.
    rewrite Z.pow_add_r by lia. nia. }
  assert (Hfexp : fexp 53 1024 (Zdigits2 m + e) <= 0)
    by (apply fexp_nonpos; lia).
  unfold shr_fexp, shr. cbn [shr_record_of_loc].
  destruct (fexp 53 1024 (Zdigits2 m + e) - e) as [| q | q] eqn:Hshift;
    cbn [fst snd shr_m loc_of_shr_record round_nearest_even];
    [lia | | lia].
  rewrite iter_pos_nat.
  pose proof (shr_iter_nonneg m (Pos.to_nat q) Hm) as Hiter.
  cbn zeta in Hiter. rewrite positive_nat_Z in Hiter.
  destruct (Nat.iter (Pos.to_nat q) shr_1 (Build_shr_record m false false))
    as [x r s].
  cbn [shr_m shr_r shr_s] in Hiter. destruct Hiter as [Hx Hrs].
  assert (HP : 0 < 2 ^ Zpos q) by (apply Z.pow_pos_nonneg; lia).
  assert (Hsplit : 2 ^ (- e) = 2 ^ (- (e + Zpos q)) * 2 ^ Zpos q).
  { rewrite <- Z.pow_add_r by lia. f_equal. lia. }
  assert (Hle' : m <= K * 2 ^ (- (e + Zpos q)) * 2 ^ Zpos q).
  { rewrite <- Z.mul_assoc, <- Hsplit. exact Hle. }
  set (K1 := K * 2 ^ (- (e + Zpos q))) in *.
  set (P := 2 ^ Zpos q) in *.
  assert (HxK : x <= K1).
  { rewrite Hx. apply Z.div_le_upper_bound; lia. }
  split; [lia |]. split; [rewrite Hx; apply Z.div_pos; lia |].
  split; [apply round_nearest_even_bounds |].
  destruct r, s; cbn [loc_of_shr_record round_nearest_even shr_m];
    try exact HxK.
  all: assert (Hmod : m mod P <> 0)
    by (intros Hmod; destruct (Hrs Hmod); discriminate).
  all: assert (Hlt : m < P * K1).
  all: try (destruct (Z.eq_dec m (P * K1)) as [Heq | Hne]; [| lia];
            exfalso; apply Hmod; rewrite Heq, Z.mul_comm;
            apply Z.mod_mul; lia).
  all: assert (HxK' : x < K1)
    by (rewrite Hx; apply Z.div_lt_upper_bound; lia).
  all: try (destruct (Z.even x)); lia.
Qed.

(** Rounding a positive mantissa: when [mx * 2^ex] is at most the integer
    [K], the rounded double is zero or a positive double that is at most
    [K]. *)
Lemma binary_round_aux_bound (mx : positive) (ex K : Z) :
  ex <= 0 -> 0 <= K < 2 ^ 53 -> Zpos mx <= K * 2 ^ (- ex) ->
  match binary_round_aux 53 1024 false (Zpos mx) ex loc_Exact with
  | S754_zero s => s = false
  | S754_finite s m e => s = false /\ e <= 0 /\ Zpos m <= K * 2 ^ (- e)
  | S754_infinity _ | S754_nan => False
  end.
Proof.
  intros Hex HK Hle. unfold binary_round_aux.
  pose proof (shr_fexp_bound (Zpos mx) ex K ltac:(lia) Hex HK Hle) as Hfirst.
  destruct (shr_fexp 53 1024 (Zpos mx) ex loc_Exact) as [mrs' e'].
  cbn [fst snd] in Hfirst. destruct Hfirst as (He' & Hm' & Hlow & Hhigh).
  pose proof (shr_fexp_bound
                (round_nearest_even (shr_m mrs') (loc_of_shr_record mrs'))
                e' K ltac:(lia) He' HK Hhigh) as Hsecond.
  destruct (shr_fexp 53 1024
              (round_nearest_even (shr_m mrs') (loc_of_shr_record mrs'))
              e' loc_Exact) as [mrs'' e''].
  cbn [fst snd] in Hsecond. destruct Hsecond as (He'' & Hm'' & Hlow' & Hhigh').
  destruct (shr_m mrs'') as [| m | m]; [reflexivity | | lia].
  replace (e'' <=? 1024 - 53) with true by (symmetry; apply Z.leb_le; lia).
  split; [reflexivity |]. split; [exact He'' | lia].
Qed.

(** A negative double stays negative (or zero) when rounded. *)
Lemma binary_round_aux_negative (m e z : Z) (l : location) :
  Double.trunc (binary_round_aux 53 1024 true m e l) = Some z -> z <= 0.
Proof.
  unfold binary_round_aux.
  destruct (shr_fexp 53 1024 m e l) as [mrs' e'].
  destruct (shr_fexp 53 1024 _ e' loc_Exact) as [mrs'' e''].
  destruct (shr_m mrs'') as [| p | p]; cbn [Double.trunc];
    [intros [= <-]; lia | | discriminate].
  destruct (e'' <=? 1024 - 53); cbn [Double.trunc cond_Zopp];
    [| discriminate].
  intros [= <-].
  destruct (0 <=? e'') eqn:Hsign.
  - assert (0 <= 2 ^ e'') by (apply Z.pow_nonneg; lia). nia.
  - assert (0 <= Zpos p / 2 ^ (- e'')); [| lia].
    apply Z.div_pos; [lia |]. apply Z.pow_pos_nonneg; lia.
Qed.

Lemma pos_iter_xO (p d : positive) :
  Zpos (Pos.iter xO p d) = Zpos p * 2 ^ Zpos d.
Proof.
  induction d as [| d IH] using Pos.peano_ind.
  - cbn. lia.
  - rewrite Pos.iter_succ, Pos2Z.inj_succ, Z.pow_succ_r by lia.
    change (Zpos (Pos.iter xO p d)~0) with (2 * Zpos (Pos.iter xO p d)).
    rewrite IH. lia.
Qed.

(** [(double) n] is exact, or at least not above [n], for a positive [n]
    below [2^53]. *)
Lemma of_Z_bound (n : Z) :
  0 < n < 2 ^ 53 ->
  match Double.of_Z n with
  | S754_zero s => s = false
  | S754_finite s m e => s = false /\ e <= 0 /\ Zpos m <= n * 2 ^ (- e)
  | S754_infinity _ | S754_nan => False
  end.
Proof.
  intros Hn. destruct n as [| p | p]; [lia | | lia].
  unfold Double.of_Z, binary_normalize, binary_round, shl_align,
    Double.prec, Double.emax.
  destruct (fexp 53 1024 (Zpos (digits2_pos p) + 0) - 0) as [| d | d] eqn:Hd.
  - apply binary_round_aux_bound; [lia | lia |]. cbn. lia.
  - apply binary_round_aux_bound; [lia | lia |]. cbn. lia.
  - assert (Hex : fexp 53 1024 (Zpos (digits2_pos p) + 0) = Zneg d) by lia.
    rewrite Hex.
    apply binary_round_aux_bound; [lia | lia |].
    rewrite pos_iter_xO. change (- Zneg d) with (Zpos d). apply Z.le_refl.
Qed.

(** A positive double that is not greater than 1.0. *)
Lemma not_above_one (mf : positive) (ef : Z) :
  Double.valid (S754_finite false mf ef) = true ->
  Double.gtb (S754_finite false mf ef) Double.one = false ->
  ef <= 0 /\ Zpos mf <= 2 ^ (- ef).
Proof.
  unfold Double.valid, valid_binary, bounded, canonical_mantissa,
    Double.gtb, SFltb, Double.one, SFcompare, Double.prec, Double.emax.
  intros Hvalid Hgt.
  apply andb_true_iff in Hvalid as [Hcanon _].
  apply Z.eqb_eq in Hcanon. unfold fexp, emin in Hcanon.
  assert (Hdig : Zpos (digits2_pos mf) <= 53) by lia.
  destruct (digits2_pos_bounds mf) as [_ Hhigh].
  assert (Hmf : Zpos mf < 2 ^ 53).
  { apply Z.lt_le_trans with (1 := Hhigh). apply Z.pow_le_mono_r; lia. }
  destruct (Z.compare_spec (-52) ef) as [Heq | Hlt | Hgt'].
  - subst ef. split; [lia |].
    change (Pos.compare_cont Eq 4503599627370496 mf)
      with (Pos.compare 4503599627370496 mf) in Hgt.
    destruct (Pos.compare_spec 4503599627370496 mf) as [H1 | H1 | H1];
      [| discriminate Hgt |].
    + subst mf. vm_compute. discriminate.
    + change (2 ^ (- -52)) with 4503599627370496.
      apply Z.lt_le_incl, Pos2Z.pos_lt_pos. exact H1.
  - discriminate Hgt.
  - split; [lia |].
    apply Z.lt_le_incl, Z.lt_le_trans with (1 := Hmf).
    apply Z.pow_le_mono_r; lia.
Qed.

(** The integer part of [f * (double) n] is at most [n] when the double [f]
    is not greater than 1.0 and [n] is a size below [2^31]. *)
Lemma trunc_mul_of_Z_le (f : Double.double) (n z : Z) :
  Double.valid f = true ->
  Double.gtb f Double.one = false ->
  0 <= n < 2 ^ 31 ->
  Double.trunc (Double.mul f (Double.of_Z n)) = Some z ->
  z <= n.
Proof.
  intros Hvalid Hgt Hn.
  destruct (Z.eq_dec n 0) as [-> | Hn0].
  - change (Double.of_Z 0) with (S754_zero false).
    destruct f as [sf | sf | | sf mf ef]; cbn;
      first [discriminate | intros [= <-]; lia].
  - assert (Hn53 : 0 < n < 2 ^ 53).
    { split; [lia |]. apply Z.lt_trans with (2 ^ 31); [lia | reflexivity]. }
    pose proof (of_Z_bound n Hn53) as Hof.
    destruct (Double.of_Z n) as [sn | sn | | sn mn en]; try contradiction.
    + destruct f as [sf | sf | | sf mf ef]; cbn;
        first [discriminate | intros [= <-]; lia].
    + destruct Hof as (-> & Hen & Hmn).
      destruct f as [sf | sf | | sf mf ef];
        [cbn; intros [= <-]; lia | cbn; discriminate | cbn; discriminate |].
      unfold Double.mul, SFmul, Double.prec, Double.emax.
      destruct sf; cbn [xorb].
      * intros Hz. apply binary_round_aux_negative in Hz. lia.
      * destruct (not_above_one mf ef Hvalid Hgt) as [Hef Hmf].
        assert (Hprod : Zpos (mf * mn) <= n * 2 ^ (- (ef + en))).
        { rewrite Pos2Z.inj_mul.
          replace (- (ef + en)) with (- ef + - en) by lia.
          rewrite Z.pow_add_r by lia.
          assert (0 < 2 ^ (- en)) by (apply Z.pow_pos_nonneg; lia).
          assert (0 < 2 ^ (- ef)) by (apply Z.pow_pos_nonneg; lia).
          nia. }
        pose proof (binary_round_aux_bound (mf * mn) (ef + en) n
                      ltac:(lia) ltac:(lia) Hprod) as Hround.
        destruct (binary_round_aux 53 1024 false (Zpos (mf * mn)) (ef + en)
                    loc_Exact) as [s | s | | s m e]; try contradiction.
        -- cbn. intros [= <-]. lia.
        -- destruct Hround as (-> & He & Hm).
           cbn [Double.trunc cond_Zopp]. intros [= <-].
           destruct (Z.leb_spec 0 e) as [He0 | He0].
           ++ replace e with 0 in * by lia.
              change (2 ^ (- 0)) with 1 in Hm. change (2 ^ 0) with 1. lia.
           ++ apply Z.div_le_upper_bound;
                [apply Z.pow_pos_nonneg; lia | lia].
Qed.

(** C10: whenever [getNumberOfIndividualsToMigrate] returns, the count is
    at most the size of the population. *)
Theorem getNumberOfIndividualsToMigrate_at_most_size
    (self : MigrationSelectionPolicy) (population : Population) (r : Z) :
  Double.valid (migrationRateFrac self) = true ->
  getNumberOfIndividualsToMigrate self population = Returns r ->
  r <= size population.
Proof.
  intros Hvalid. unfold getNumberOfIndividualsToMigrate.
  assert (Hsize : 0 <= size population) by (unfold size; lia).
  destruct (Z.ltb_spec (migrationRateAbs self) 0) as [Hneg | Hpos].
  - destruct (Double.gtb (migrationRateFrac self) Double.one) eqn:Hgt;
      [discriminate |].
    unfold Double.to_int.
    destruct (Double.trunc _) as [z |] eqn:Htrunc; [| discriminate].
    destruct (MachineInt.in_int z) eqn:Hin; [| discriminate].
    intros [= <-].
    destruct (Z_lt_le_dec (size population) (2 ^ 31)) as [Hsmall | Hbig].
    + apply (trunc_mul_of_Z_le (migrationRateFrac self)); try assumption.
      split; assumption.
    + unfold MachineInt.in_int, MachineInt.INT_MIN, MachineInt.INT_MAX in Hin.
      apply andb_true_iff in Hin as [_ Hmax]. apply Z.leb_le in Hmax. lia.
  - destruct (Z.ltb_spec (size population) (migrationRateAbs self));
      [discriminate |].
    intros [= <-]. assumption.
Qed.

(** Three tenths of a population of ten is at most ten. *)
Lemma getNumberOfIndividualsToMigrate_at_most_size_witness :
  3 <= size (Inputs.population_of 10).
Proof.
  apply (getNumberOfIndividualsToMigrate_at_most_size
           Inputs.fraction_policy (Inputs.population_of 10) 3);
    vm_compute; reflexivity.
Defined.

(** ** Further properties of the number of individuals to migrate *)

(** X1: with a non-negative absolute rate that does not exceed the
    population size, the call returns that rate, whatever the fractional
    rate is. *)
Theorem absolute_rate_is_returned
    (self : MigrationSelectionPolicy) (population : Population) :
  0 <= migrationRateAbs self <= size population ->
  getNumberOfIndividualsToMigrate self population
  = Returns (migrationRateAbs self).
Proof.
  intros [Hlow Hhigh]. unfold getNumberOfIndividualsToMigrate.
  destruct (Z.ltb_spec (migrationRateAbs self) 0); [lia |].
  destruct (Z.ltb_spec (size population) (migrationRateAbs self));
    [lia | reflexivity].
Qed.

(** An absolute rate of four on a population of ten. *)
Lemma absolute_rate_is_returned_witness :
  getNumberOfIndividualsToMigrate
    (mkPolicy 4 Inputs.minus_half) (Inputs.population_of 10)
  = Returns (migrationRateAbs (mkPolicy 4 Inputs.minus_half)).
Proof.
  apply (absolute_rate_is_returned
           (mkPolicy 4 Inputs.minus_half) (Inputs.population_of 10)).
  vm_compute. split; discriminate.
Defined.

(** X2: the only exception that [getNumberOfIndividualsToMigrate] throws is
    [assertion_error], with one of its two messages. *)
Theorem only_assertion_errors
    (self : MigrationSelectionPolicy) (population : Population)
    (e : exception) :
  getNumberOfIndividualsToMigrate self population = Throws e ->
  e = assertion_error "Fractional migration rate is grater than 1!"
  \/ e = assertion_error "Absolute migration rate exceeds population size!".
Proof.
  unfold getNumberOfIndividualsToMigrate.
  destruct (migrationRateAbs self <? 0).
  - destruct (Double.gtb _ _); [intros [= <-]; left; reflexivity |].
    destruct (Double.to_int _); discriminate.
  - destruct (size population <? migrationRateAbs self);
      [intros [= <-]; right; reflexivity | discriminate].
Qed.

(** An absolute rate of eleven on a population of ten. *)
Lemma only_assertion_errors_witness :
  assertion_error "Absolute migration rate exceeds population size!"
  = assertion_error "Fractional migration rate is grater than 1!"
  \/ assertion_error "Absolute migration rate exceeds population size!"
     = assertion_error "Absolute migration rate exceeds population size!".
Proof.
  apply (only_assertion_errors
           (mkPolicy 11 Inputs.minus_half) (Inputs.population_of 10)).
  reflexivity.
Defined.

(** The sign of a rounded double is the sign that was asked for. *)
Lemma binary_round_aux_sign (sx : bool) (m e : Z) (l : location) :
  match binary_round_aux 53 1024 sx m e l with
  | S754_zero s | S754_infinity s | S754_finite s _ _ => s = sx
  | S754_nan => True
  end.
Proof.
  unfold binary_round_aux.
  destruct (shr_fexp 53 1024 m e l) as [mrs' e'].
  destruct (shr_fexp 53 1024 _ e' loc_Exact) as [mrs'' e''].
  destruct (shr_m mrs''); [reflexivity | | exact I].
  destruct (e'' <=? 1024 - 53); reflexivity.
Qed.

Lemma trunc_positive_sign (x : Double.double) (z : Z) :
  match x with
  | S754_finite s _ _ => s = false
  | _ => True
  end ->
  Double.trunc x = Some z -> 0 <= z.
Proof.
  destruct x as [s | s | | s m e]; cbn [Double.trunc];
    [intros _ [= <-]; lia | discriminate | discriminate |].
  intros -> [= <-]. cbn [cond_Zopp].
  destruct (Z.leb_spec 0 e).
  - apply Z.mul_nonneg_nonneg; [lia |]. apply Z.pow_nonneg. lia.
  - apply Z.div_pos; [lia |]. apply Z.pow_pos_nonneg; lia.
Qed.

Lemma of_Z_sign (n : Z) :
  0 <= n ->
  match Double.of_Z n with
  | S754_zero s | S754_infinity s | S754_finite s _ _ => s = false
  | S754_nan => True
  end.
Proof.
  intros Hn. destruct n as [| p | p]; [reflexivity | | lia].
  unfold Double.of_Z, binary_normalize, binary_round.
  destruct (shl_align p 0 _) as [mz ez].
  apply binary_round_aux_sign.
Qed.

Lemma trunc_mul_of_Z_nonneg (f : Double.double) (n z : Z) :
  Double.ltb f Double.zero = false ->
  0 <= n ->
  Double.trunc (Double.mul f (Double.of_Z n)) = Some z ->
  0 <= z.
Proof.
  intros Hlt Hn. pose proof (of_Z_sign n Hn) as Hsign.
  apply trunc_positive_sign.
  destruct (Double.of_Z n) as [sn | sn | | sn mn en];
    destruct f as [sf | sf | | sf mf ef]; cbn; try exact I.
  subst sn. destruct sf; [discriminate Hlt |].
  pose proof (binary_round_aux_sign false (Zpos (mf * mn)) (ef + en)
                loc_Exact) as Hround.
  cbn [xorb].
  destruct (binary_round_aux _ _ _ _ _ _); try exact I. exact Hround.
Qed.

(** X3: when the call returns and the absolute rate is in use, or the
    fractional rate is not less than 0.0, the count is not negative. *)
Theorem count_is_not_negative
    (self : MigrationSelectionPolicy) (population : Population) (r : Z) :
  0 <= migrationRateAbs self
  \/ Double.ltb (migrationRateFrac self) Double.zero = false ->
  getNumberOfIndividualsToMigrate self population = Returns r ->
  0 <= r.
Proof.
  intros Hrate. unfold getNumberOfIndividualsToMigrate.
  assert (Hsize : 0 <= size population) by (unfold size; lia).
  destruct (Z.ltb_spec (migrationRateAbs self) 0) as [Hneg | Hpos].
  - destruct Hrate as [Habs | Hfrac]; [lia |].
    destruct (Double.gtb _ _); [discriminate |].
    unfold Double.to_int.
    destruct (Double.trunc _) as [z |] eqn:Htrunc; [| discriminate].
    destruct (MachineInt.in_int z); [| discriminate].
    intros [= <-].
    apply (trunc_mul_of_Z_nonneg (migrationRateFrac self) (size population));
      assumption.
  - destruct (size population <? migrationRateAbs self); [discriminate |].
    intros [= <-]. exact Hpos.
Qed.

(** Three tenths of ten individuals: a count that is not negative. *)
Lemma count_is_not_negative_witness : 0 <= 3.
Proof.
  apply (count_is_not_negative
           Inputs.fraction_policy (Inputs.population_of 10) 3).
  - right. reflexivity.
  - vm_compute. reflexivity.
Defined.

(** *** Exact conversions and products *)

Lemma digits2_pos_unique (m : positive) (k : Z) :
  2 ^ (k - 1) <= Zpos m < 2 ^ k -> Zpos (digits2_pos m) = k.
Proof.
  intros [Hlow Hhigh]. destruct (digits2_pos_bounds m) as [Hlow' Hhigh'].
  destruct (Z.lt_trichotomy (Zpos (digits2_pos m)) k) as [Hlt | [Heq | Hgt]];
    [| exact Heq |]; exfalso.
  - assert (2 ^ Zpos (digits2_pos m) <= 2 ^ (k - 1))
      by (apply Z.pow_le_mono_r; lia).
    lia.
  - assert (2 ^ k <= 2 ^ (Zpos (digits2_pos m) - 1))
      by (apply Z.pow_le_mono_r; lia).
    lia.
Qed.

Lemma digits2_pos_iter_xO (p q : positive) :
  Zpos (digits2_pos (Pos.iter xO p q)) = Zpos (digits2_pos p) + Zpos q.
Proof.
  induction q as [| q IH] using Pos.peano_ind.
  - cbn [Pos.iter digits2_pos]. lia.
  - rewrite Pos.iter_succ. cbn [digits2_pos]. lia.
Qed.

(** A mantissa of 53 digits at an exponent of the format is left as it is
    by the shift. *)
Lemma shr_fexp_canonical (mz : positive) (ez : Z) :
  Zpos (digits2_pos mz) = 53 -> -1074 <= ez ->
  shr_fexp 53 1024 (Zpos mz) ez loc_Exact
  = (Build_shr_record (Zpos mz) false false, ez).
Proof.
  intros Hd Hez. unfold shr_fexp. cbn [Zdigits2 shr_record_of_loc].
  rewrite Hd.
  replace (fexp 53 1024 (53 + ez) - ez) with 0
    by (unfold fexp, emin; lia).
  reflexivity.
Qed.

Lemma binary_round_aux_canonical (mz : positive) (ez : Z) :
  Zpos (digits2_pos mz) = 53 -> -1074 <= ez <= 971 ->
  binary_round_aux 53 1024 false (Zpos mz) ez loc_Exact
  = S754_finite false mz ez.
Proof.
  intros Hd Hez. unfold binary_round_aux.
  rewrite (shr_fexp_canonical mz ez Hd) by lia.
  cbn [shr_m loc_of_shr_record round_nearest_even].
  rewrite (shr_fexp_canonical mz ez Hd) by lia.
  cbn [shr_m].
  replace (ez <=? 1024 - 53) with true by (symmetry; apply Z.leb_le; lia).
  reflexivity.
Qed.

(** [(double) n] is exact for a positive [n] below [2^53]. *)
Lemma of_Z_exact (n : Z) :
  0 < n < 2 ^ 53 ->
  exists mn en,
    Double.of_Z n = S754_finite false mn en
    /\ -52 <= en <= 0
    /\ Zpos mn = n * 2 ^ (- en)
    /\ Zpos (digits2_pos mn) = 53.
Proof.
  intros Hn. destruct n as [| p | p]; [lia | | lia].
  assert (Hd : 1 <= Zpos (digits2_pos p) <= 53).
  { split; [lia |]. apply (Zdigits2_le (Zpos p) 53); lia. }
  unfold Double.of_Z, binary_normalize, binary_round, shl_align,
    Double.prec, Double.emax.
  replace (fexp 53 1024 (Zpos (digits2_pos p) + 0))
    with (Zpos (digits2_pos p) - 53) by (unfold fexp, emin; lia).
  destruct (Zpos (digits2_pos p) - 53 - 0) as [| q | q] eqn:Hshift; [| lia |].
  - exists p, 0. split; [| split; [lia | split; [cbn; lia | lia]]].
    apply binary_round_aux_canonical; lia.
  - exists (Pos.iter xO p q), (Zpos (digits2_pos p) - 53).
    assert (Hdig : Zpos (digits2_pos (Pos.iter xO p q)) = 53)
      by (rewrite digits2_pos_iter_xO; lia).
    split; [apply binary_round_aux_canonical; lia |].
    split; [lia |]. split; [| exact Hdig].
    rewrite pos_iter_xO. f_equal. f_equal. lia.
Qed.

(** Multiplying by 1.0 changes nothing. *)
Lemma mul_one_exact (mz : positive) (ez : Z) :
  Zpos (digits2_pos mz) = 53 -> -1022 <= ez <= 971 ->
  Double.mul Double.one (S754_finite false mz ez) = S754_finite false mz ez.
Proof.
  intros Hd Hez.
  unfold Double.mul, Double.one, SFmul, Double.prec, Double.emax.
  cbn [xorb]. unfold binary_round_aux.
  destruct (digits2_pos_bounds mz) as [Hlow Hhigh]. rewrite Hd in Hlow, Hhigh.
  change (2 ^ (53 - 1)) with 4503599627370496 in Hlow.
  change (2 ^ 53) with 9007199254740992 in Hhigh.
  assert (Hprod : Zpos (digits2_pos (4503599627370496 * mz)) = 105).
  { apply digits2_pos_unique. rewrite Pos2Z.inj_mul.
    change (2 ^ (105 - 1)) with (4503599627370496 * 4503599627370496).
    change (2 ^ 105) with (4503599627370496 * 9007199254740992).
    lia. }
  unfold shr_fexp at 1. cbn [Zdigits2 shr_record_of_loc]. rewrite Hprod.
  replace (fexp 53 1024 (105 + (-52 + ez)) - (-52 + ez)) with 52
    by (unfold fexp, emin; lia).
  unfold shr. rewrite iter_pos_nat.
  pose proof (shr_iter_nonneg (Zpos (4503599627370496 * mz))
                (Pos.to_nat 52) ltac:(lia)) as Hiter.
  cbn zeta in Hiter. rewrite positive_nat_Z in Hiter.
  destruct (Nat.iter (Pos.to_nat 52) shr_1 _) as [x r s].
  cbn [shr_m shr_r shr_s] in Hiter. destruct Hiter as [Hx Hrs].
  change (2 ^ 52) with 4503599627370496 in Hx, Hrs.
  rewrite Pos2Z.inj_mul, (Z.mul_comm 4503599627370496 (Zpos mz)) in Hx, Hrs.
  rewrite Z.div_mul in Hx by discriminate.
  destruct (Hrs (Z.mod_mul (Zpos mz) 4503599627370496 ltac:(discriminate)))
    as [-> ->].
  subst x.
  cbn [shr_m loc_of_shr_record round_nearest_even].
  replace (-52 + ez + 52) with ez by lia.
  rewrite (shr_fexp_canonical mz ez Hd) by lia.
  cbn [shr_m].
  replace (ez <=? 1024 - 53) with true by (symmetry; apply Z.leb_le; lia).
  reflexivity.
Qed.

(** X4: with no absolute rate and the fractional rate 1.0, the whole
    population migrates: the call returns the population size (for
    populations of fewer than [2^31] individuals). *)
Theorem unit_fraction_selects_all
    (self : MigrationSelectionPolicy) (population : Population) :
  migrationRateAbs self < 0 ->
  migrationRateFrac self = Double.one ->
  size population < 2 ^ 31 ->
  getNumberOfIndividualsToMigrate self population
  = Returns (size population).
Proof.
  intros Hneg Hone Hsmall. unfold getNumberOfIndividualsToMigrate.
  assert (Hsize : 0 <= size population) by (unfold size; lia).
  destruct (Z.ltb_spec (migrationRateAbs self) 0) as [_ | Hpos]; [| lia].
  rewrite Hone. change (Double.gtb Double.one Double.one) with false.
  cbv iota.
  generalize dependent (size population). intros n Hsmall Hsize.
  destruct (Z.eq_dec n 0) as [-> | Hn0]; [reflexivity |].
  destruct (of_Z_exact n) as (mn & en & Hof & Hen & Hmn & Hdig).
  { split; [lia |]. apply Z.lt_trans with (2 ^ 31); [lia | reflexivity]. }
  rewrite Hof, (mul_one_exact mn en Hdig) by lia.
  unfold Double.to_int, Double.trunc. cbn [cond_Zopp].
  assert (Hval : (if 0 <=? en then Zpos mn * 2 ^ en
                  else Zpos mn / 2 ^ (- en)) = n).
  { destruct (Z.leb_spec 0 en) as [He0 | He0].
    - replace en with 0 in * by lia.
      change (2 ^ (- 0)) with 1 in Hmn. change (2 ^ 0) with 1. lia.
    - rewrite Hmn. apply Z.div_mul.
      apply Z.pow_nonzero; lia. }
  rewrite Hval.
  replace (MachineInt.in_int n) with true; [reflexivity |].
  symmetry. unfold MachineInt.in_int, MachineInt.INT_MIN, MachineInt.INT_MAX.
  apply andb_true_iff. split; apply Z.leb_le; lia.
Qed.

(** All ten individuals of a population of ten. *)
Lemma unit_fraction_selects_all_witness :
  getNumberOfIndividualsToMigrate
    (mkPolicy (-1) Double.one) (Inputs.population_of 10)
  = Returns (size (Inputs.population_of 10)).
Proof.
  apply (unit_fraction_selects_all
           (mkPolicy (-1) Double.one) (Inputs.population_of 10));
    reflexivity.
Defined.

(** ** The constructor of DTLZ3 *)

Lemma to_size_t_small (z : Z) :
  0 <= z < 2 ^ 64 -> MachineInt.to_size_t z = z.
Proof. intros Hz. unfold MachineInt.to_size_t. apply Z.mod_small. exact Hz. Qed.

Lemma to_int_small (z : Z) :
  - 2 ^ 31 <= z < 2 ^ 31 -> MachineInt.to_int z = z.
Proof.
  intros Hz. unfold MachineInt.to_int.
  rewrite Z.mod_small; lia.
Qed.

Lemma map_const_repeat {A B : Type} (b : B) (l : list A) :
  map (fun _ => b) l = repeat b (List.length l).
Proof. induction l as [| x l IH]; simpl; [reflexivity | now rewrite IH]. Qed.

(** C9, as stated, fails: the sum [k + fdim - 1] is computed in [size_t];
    for [k = 2] and [fdim = 2^64 - 1], both at least 1 and both values of
    their types, it wraps around to 0. *)
Lemma dtlz3_dimension_wraps :
  MachineInt.in_int 2 = true
  /\ MachineInt.in_size_t 18446744073709551615 = true
  /\ Problem.get_dimension (Problem.dtlz3 2 18446744073709551615)
     <> 2 + 18446744073709551615 - 1.
Proof.
  split; [reflexivity |]. split; [reflexivity |].
  vm_compute. discriminate.
Qed.

(** C9, amended: for every [k >= 1] and [fdim >= 1] whose sum
    [k + fdim - 1] is at most [INT_MAX], [dtlz3(k, fdim)] has the
    decision dimension [k + fdim - 1], the integer dimension 0, the objective
    dimension [fdim], and the bounds 0.0 and 1.0 on every coordinate. *)
Theorem dtlz3_dimensions_and_bounds (k fdim : Z) :
  1 <= k -> 1 <= fdim -> k + fdim - 1 <= MachineInt.INT_MAX ->
  Problem.get_dimension (Problem.dtlz3 k fdim) = k + fdim - 1
  /\ Problem.get_i_dimension (Problem.dtlz3 k fdim) = 0
  /\ Problem.get_f_dimension (Problem.dtlz3 k fdim) = fdim
  /\ Problem.get_lb (Problem.dtlz3 k fdim)
     = repeat Double.zero (Z.to_nat (k + fdim - 1))
  /\ Problem.get_ub (Problem.dtlz3 k fdim)
     = repeat Double.one (Z.to_nat (k + fdim - 1)).
Proof.
  unfold MachineInt.INT_MAX. intros Hk Hf Hsum.
  assert (Hn : MachineInt.to_int
                 (MachineInt.to_size_t
                    (MachineInt.to_size_t (MachineInt.to_size_t k + fdim)
                     - MachineInt.to_size_t 1)) = k + fdim - 1).
  { rewrite (to_size_t_small k) by lia.
    rewrite (to_size_t_small 1) by lia.
    rewrite (to_size_t_small (k + fdim)) by lia.
    rewrite (to_size_t_small (k + fdim - 1)) by lia.
    apply to_int_small. lia. }
  assert (Hfd : MachineInt.to_int fdim = fdim) by (apply to_int_small; lia).
  unfold Problem.dtlz3, Problem.get_dimension, Problem.get_i_dimension,
    Problem.get_f_dimension, Problem.get_lb, Problem.get_ub.
  rewrite Hn, Hfd. cbn.
  rewrite !map_const_repeat, !repeat_length.
  repeat split; reflexivity.
Qed.

(** DTLZ3 with [k = 5] and three objectives has seven decision variables. *)
Lemma dtlz3_dimensions_and_bounds_witness :
  Problem.get_dimension (Problem.dtlz3 5 3) = 5 + 3 - 1
  /\ Problem.get_i_dimension (Problem.dtlz3 5 3) = 0
  /\ Problem.get_f_dimension (Problem.dtlz3 5 3) = 3
  /\ Problem.get_lb (Problem.dtlz3 5 3)
     = repeat Double.zero (Z.to_nat (5 + 3 - 1))
  /\ Problem.get_ub (Problem.dtlz3 5 3)
     = repeat Double.one (Z.to_nat (5 + 3 - 1)).
Proof.
  apply (dtlz3_dimensions_and_bounds 5 3); vm_compute; discriminate.
Defined.

(** ** The archipelago *)

Import Archipelago.

Section ArchipelagoProperties.

Context {island : Type} `{Island island}.

Local Open Scope nat_scope.

(** C5: a constructor called without the distribution argument builds an
    archipelago whose distribution type is [point_to_point]; called without
    the direction argument, one whose migration direction is
    [destination]. *)
Theorem constructors_default_migration_attributes :
  (forall md,
     m_dist_type (archipelago_ctor (island := island) None md)
     = point_to_point)
  /\ (forall dt,
        m_migr_dir (archipelago_ctor (island := island) dt None)
        = destination)
  /\ (forall t md,
        m_dist_type (archipelago_ctor_topology (island := island) t None md)
        = point_to_point)
  /\ (forall t dt,
        m_migr_dir (archipelago_ctor_topology (island := island) t dt None)
        = destination)
  /\ (forall p a n m t md,
        m_dist_type (archipelago_ctor_islands p a n m t None md)
        = point_to_point)
  /\ (forall p a n m t dt,
        m_migr_dir (archipelago_ctor_islands p a n m t dt None)
        = destination).
Proof. repeat split. Qed.

(** *** What the events leave alone *)

Lemma apply_event_migr_dir (a : archipelago island) (e : event) :
  m_migr_dir (apply_event a e) = m_migr_dir a.
Proof.
  destruct e as [isl | t | n | | | dst subset | i | src rnd]; cbn.
  - unfold push_back.
    destruct (m_busy a); [reflexivity |].
    destruct (isl_attached isl); [reflexivity |].
    destruct (negb _); reflexivity.
  - unfold set_topology.
    destruct (m_busy a); [reflexivity |].
    destruct (negb _); reflexivity.
  - unfold evolve. destruct (m_busy a); reflexivity.
  - reflexivity.
  - reflexivity.
  - unfold pre_evolution.
    destruct (m_container a !! dst); [| reflexivity].
    destruct (m_migr_dir a) eqn:Hdir.
    + destruct (consume _ _). destruct (integrate _ _ _). cbn. congruence.
    + destruct (integrate _ _ _). cbn. congruence.
  - reflexivity.
  - unfold post_evolution.
    destruct (m_container a !! src); [| reflexivity].
    destruct (elements _); [reflexivity |].
    destruct (m_migr_dir a) eqn:Hdir; [| cbn; congruence].
    destruct (m_dist_type a); cbn; congruence.
Qed.

Lemma run_migr_dir (a : archipelago island) (es : list event) :
  m_migr_dir (run a es) = m_migr_dir a.
Proof.
  revert a. induction es as [| e es IH]; intros a; [reflexivity |].
  cbn. fold (run (apply_event a e) es). rewrite IH. apply apply_event_migr_dir.
Qed.

Lemma run_app (a : archipelago island) (es1 es2 : list event) :
  run a (es1 ++ es2) = run (run a es1) es2.
Proof. unfold run. apply foldl_app. Qed.

(** *** The store under destination-initiated migration *)

Lemma publish_own_entry (v : nat) (individuals : list Individual)
    (outer : migration_map_type) :
  single_own_entry outer ->
  single_own_entry (publish v v individuals outer).
Proof.
  intros Hinv w inner. unfold publish.
  destruct (decide (v = w)) as [<- | Hne].
  - rewrite lookup_insert_eq. intros [= <-].
    exists individuals.
    destruct (outer !! v) as [old |] eqn:Hold; cbn.
    + destruct (Hinv v old Hold) as [x ->].
      apply insert_singleton_eq.
    + apply insert_empty.
  - rewrite lookup_insert_ne by exact Hne. apply Hinv.
Qed.

Lemma apply_event_own_entry (a : archipelago island) (e : event) :
  m_migr_dir a = destination ->
  single_own_entry (m_migr_map a) ->
  single_own_entry (m_migr_map (apply_event a e)).
Proof.
  intros Hdir Hinv.
  destruct e as [isl | t | n | | | dst subset | i | src rnd]; cbn.
  - unfold push_back.
    destruct (m_busy a); [exact Hinv |].
    destruct (isl_attached isl); [exact Hinv |].
    destruct (negb _); exact Hinv.
  - unfold set_topology.
    destruct (m_busy a); [exact Hinv |].
    destruct (negb _); exact Hinv.
  - unfold evolve. destruct (m_busy a); exact Hinv.
  - exact Hinv.
  - exact Hinv.
  - unfold pre_evolution.
    destruct (m_container a !! dst); [| exact Hinv].
    rewrite Hdir. destruct (integrate _ _ _). exact Hinv.
  - exact Hinv.
  - unfold post_evolution.
    destruct (m_container a !! src); [| exact Hinv].
    destruct (elements _); [exact Hinv |].
    rewrite Hdir. cbn. apply publish_own_entry. exact Hinv.
Qed.

(** C3: under destination-initiated migration, if every entry of the
    migration store holds exactly one batch, filed under the island's own
    index, then so it is after every further event. *)
Theorem destination_store_single_own_entry
    (a : archipelago island) (es : list event) :
  m_migr_dir a = destination ->
  single_own_entry (m_migr_map a) ->
  single_own_entry (m_migr_map (run a es)).
Proof.
  revert a. induction es as [| e es IH]; intros a Hdir Hinv; [exact Hinv |].
  cbn. fold (run (apply_event a e) es). apply IH.
  - rewrite apply_event_migr_dir. exact Hdir.
  - apply apply_event_own_entry; assumption.
Qed.

(** *** The migration history *)

Lemma integrate_arrivals (dst : nat) (batches : list (nat * list Individual))
    (acc : island * migr_hist_type) :
  snd (foldl (fun (acc : island * migr_hist_type)
                  (batch : nat * list Individual) =>
                let (isl', count) := isl_assimilate (fst acc) (snd batch) in
                (isl', snd acc ++ [(count, fst batch, dst)]))
             acc batches)
  = snd acc ++ arrivals dst (fst acc) batches.
Proof.
  revert acc. induction batches as [| [origin candidates] batches IH];
    intros acc.
  - cbn. now rewrite app_nil_r.
  - cbn [foldl arrivals fst snd]. rewrite IH.
    destruct (isl_assimilate (fst acc) candidates) as [isl' count].
    cbn [fst snd]. rewrite <- app_assoc. reflexivity.
Qed.

Lemma apply_event_history (a : archipelago island) (e : event) :
  is_clear_history e = false ->
  m_migr_hist (apply_event a e) = m_migr_hist a ++ recorded a e.
Proof.
  intros Hclear.
  destruct e as [isl | t | n | | | dst subset | i | src rnd];
    cbn [apply_event recorded]; rewrite ?app_nil_r.
  - unfold push_back.
    destruct (m_busy a); [reflexivity |].
    destruct (isl_attached isl); [reflexivity |].
    destruct (negb _); reflexivity.
  - unfold set_topology.
    destruct (m_busy a); [reflexivity |].
    destruct (negb _); reflexivity.
  - unfold evolve. destruct (m_busy a); reflexivity.
  - reflexivity.
  - discriminate Hclear.
  - unfold pre_evolution.
    destruct (m_container a !! dst) as [isl |] eqn:Hisl;
      [| destruct (m_migr_dir a); rewrite app_nil_r; reflexivity].
    destruct (m_migr_dir a) eqn:Hdir.
    + rewrite app_nil_r.
      destruct (consume _ _). destruct (integrate _ _ _). reflexivity.
    + unfold integrate.
      match goal with
      | |- context [foldl ?f ?acc ?bs] =>
          pose proof (integrate_arrivals dst bs acc) as Heq;
          destruct (foldl f acc bs) as [isl' h]
      end.
      cbn [fst snd app] in Heq. subst h. reflexivity.
  - reflexivity.
  - unfold post_evolution, placements.
    destruct (m_container a !! src) as [isl |] eqn:Hisl;
      [| destruct (m_migr_dir a); rewrite app_nil_r; reflexivity].
    destruct (elements (get_neighbors (m_topology a) src))
      as [| d0 ds] eqn:Hnb.
    { destruct (m_migr_dir a), (m_dist_type a); rewrite app_nil_r;
        reflexivity. }
    destruct (m_migr_dir a) eqn:Hdir; [| rewrite app_nil_r; reflexivity].
    destruct (m_dist_type a); reflexivity.
Qed.

Lemma run_history (a : archipelago island) (es : list event) :
  forallb (fun e => negb (is_clear_history e)) es = true ->
  m_migr_hist (run a es) = m_migr_hist a ++ arrival_log a es.
Proof.
  revert a. induction es as [| e es IH]; intros a Hes.
  - cbn. now rewrite app_nil_r.
  - cbn in Hes. apply andb_true_iff in Hes as [He Hes].
    apply negb_true_iff in He.
    cbn [arrival_log]. cbn [run foldl]. fold (run (apply_event a e) es).
    rewrite (IH (apply_event a e) Hes), (apply_event_history a e He).
    rewrite app_assoc. reflexivity.
Qed.

(** C6: a history item is the triple (count, origin, destination) of one
    migration, and the log grows at its end only, in the order in which the
    migrations arrive.  Every event other than clearing the log leaves the
    items already there in place and puts behind them exactly the items the
    specification makes it record: for the pre-evolution hook of [dst]
    under destination-initiated migration one item (number of individuals
    the replacement policy took, neighbour, [dst]) for each neighbour, in
    the order in which their offers are integrated; for the post-evolution
    hook of [src] under source-initiated migration one item (number of
    emigrants, [src], destination) for each placement; for every other
    event none.  The log after a sequence of events is the log before it
    followed by the items of each event in turn. *)
Theorem history_items_appended_in_arrival_order (a : archipelago island) :
  (forall e,
     is_clear_history e = false ->
     m_migr_hist (apply_event a e) = m_migr_hist a ++ recorded a e)
  /\ (forall es1 es2,
        forallb (fun e => negb (is_clear_history e)) es2 = true ->
        m_migr_hist (run a (es1 ++ es2))
        = m_migr_hist (run a es1) ++ arrival_log (run a es1) es2).
Proof.
  split.
  - intros e He. apply apply_event_history. exact He.
  - intros es1 es2 Hes. rewrite run_app. apply run_history. exact Hes.
Qed.

(** *** Archipelagos without edges *)

Lemma isolated_neighbors (a : archipelago island) (v : nat) :
  isolated a -> get_neighbors (m_topology a) v = ∅.
Proof.
  intros (Hadj & _). unfold get_neighbors.
  rewrite Hadj, lookup_empty. reflexivity.
Qed.

Lemma isolated_post_evolution (a : archipelago island) (src rnd : nat) :
  isolated a -> post_evolution src rnd a = a.
Proof.
  intros Hiso. unfold post_evolution.
  destruct (m_container a !! src); [| reflexivity].
  rewrite (isolated_neighbors a src Hiso), elements_empty. reflexivity.
Qed.

Lemma isolated_pre_evolution (a : archipelago island) (dst : nat)
    (subset : nat -> list Individual -> list Individual) :
  isolated a ->
  m_container (pre_evolution dst subset a) = m_container a
  /\ isolated (pre_evolution dst subset a).
Proof.
  intros Hiso. unfold pre_evolution.
  destruct (m_container a !! dst) as [isl |] eqn:Hisl;
    [| split; [reflexivity | exact Hiso]].
  destruct Hiso as (Hadj & Hconn & Hhist & Hstore).
  destruct (m_migr_dir a).
  - unfold consume.
    assert (Hnone : default ∅ (m_migr_map a !! dst)
                    = (∅ : gmap nat (list Individual))).
    { destruct (m_migr_map a !! dst) as [inner |] eqn:Hinner;
        [exact (Hstore dst inner Hinner) | reflexivity]. }
    rewrite Hnone, map_to_list_empty. cbn.
    split; [apply list_insert_id; exact Hisl |].
    split; [exact Hadj |]. split; [exact Hconn |]. split; [exact Hhist |].
    intros v inner Hv. cbn in Hv.
    destruct (decide (dst = v)) as [<- | Hne].
    + rewrite lookup_insert_eq in Hv. congruence.
    + rewrite lookup_insert_ne in Hv by exact Hne. eapply Hstore, Hv.
  - unfold get_neighbors. rewrite Hadj, lookup_empty. cbn.
    rewrite elements_empty. cbn.
    split; [apply list_insert_id; exact Hisl |].
    split; [exact Hadj |]. split; [exact Hconn |].
    split; [rewrite Hhist; reflexivity | exact Hstore].
Qed.

Lemma apply_event_isolated (a : archipelago island) (e : event) :
  is_set_topology e = false ->
  isolated a -> isolated (apply_event a e).
Proof.
  intros Hset Hiso.
  destruct e as [isl | t | n | | | dst subset | i | src rnd];
    cbn [apply_event].
  - unfold push_back.
    destruct (m_busy a); [exact Hiso |].
    destruct (isl_attached isl); [exact Hiso |].
    destruct (negb _); [exact Hiso |].
    destruct Hiso as (Hadj & Hconn & Hhist & Hstore).
    split; [| split; [| split]]; cbn; try assumption.
    rewrite Hconn, Hadj. reflexivity.
  - discriminate Hset.
  - unfold evolve. destruct (m_busy a); exact Hiso.
  - exact Hiso.
  - destruct Hiso as (Hadj & Hconn & Hhist & Hstore).
    split; [| split; [| split]]; cbn; try assumption. reflexivity.
  - apply isolated_pre_evolution. exact Hiso.
  - exact Hiso.
  - rewrite isolated_post_evolution; exact Hiso.
Qed.

Lemma run_isolated (a : archipelago island) (es : list event) :
  forallb (fun e => negb (is_set_topology e)) es = true ->
  isolated a -> isolated (run a es).
Proof.
  revert a. induction es as [| e es IH]; intros a Hes Hiso; [exact Hiso |].
  cbn in Hes. apply andb_true_iff in Hes as [He Hes].
  apply negb_true_iff in He.
  cbn. fold (run (apply_event a e) es).
  apply IH; [exact Hes |]. apply apply_event_isolated; assumption.
Qed.

Lemma push_back_unconnected (n : nat) :
  adjacency (Nat.iter n topology_push_back unconnected) = ∅
  /\ connect (Nat.iter n topology_push_back unconnected)
     = connect unconnected
  /\ num_vertices (Nat.iter n topology_push_back unconnected) = n.
Proof.
  induction n as [| n (Hadj & Hconn & Hnum)]; [repeat split |].
  change (Nat.iter (S n) topology_push_back unconnected)
    with (topology_push_back (Nat.iter n topology_push_back unconnected)).
  set (t := Nat.iter n topology_push_back unconnected) in *.
  unfold topology_push_back. cbn [adjacency connect num_vertices].
  rewrite Hconn, Hadj, Hnum. repeat split.
Qed.

(** C8: the constructor of [n] islands, called without a topology, builds
    the archipelago on the unconnected topology with one vertex per island.
    However the archipelago then runs, as long as no other topology is set,
    every island has an empty set of neighbours and nothing migrates: the
    history stays empty, the pre-evolution hook leaves every island as it
    is, and the post-evolution hook changes nothing at all. *)
Theorem default_topology_is_unconnected
    (p : Problem.base) (alg : Population -> Population) (n m : nat)
    (dt : option distribution_type) (md : option migration_direction)
    (es : list event) :
  forallb (fun e => negb (is_set_topology e)) es = true ->
  m_topology (archipelago_ctor_islands p alg n m None dt md)
  = Nat.iter n topology_push_back unconnected
  /\ (forall v,
        get_neighbors
          (m_topology (run (archipelago_ctor_islands p alg n m None dt md) es))
          v = ∅)
  /\ m_migr_hist (run (archipelago_ctor_islands p alg n m None dt md) es) = []
  /\ (forall dst subset,
        m_container
          (pre_evolution dst subset
             (run (archipelago_ctor_islands p alg n m None dt md) es))
        = m_container (run (archipelago_ctor_islands p alg n m None dt md) es))
  /\ (forall src rnd,
        post_evolution src rnd
          (run (archipelago_ctor_islands p alg n m None dt md) es)
        = run (archipelago_ctor_islands p alg n m None dt md) es).
Proof.
  intros Hes.
  assert (Hiso : isolated
                   (run (archipelago_ctor_islands p alg n m None dt md) es)).
  { apply run_isolated; [exact Hes |].
    destruct (push_back_unconnected n) as (Hadj & Hconn & _).
    split; [exact Hadj |]. split; [exact Hconn |]. split; [reflexivity |].
    intros v inner Hv. cbn in Hv. rewrite lookup_empty in Hv.
    discriminate Hv. }
  split; [reflexivity |].
  split; [intros v; apply isolated_neighbors; exact Hiso |].
  split; [apply Hiso |].
  split; [intros dst subset; apply isolated_pre_evolution; exact Hiso |].
  intros src rnd. apply isolated_post_evolution. exact Hiso.
Qed.

End ArchipelagoProperties.

(** After one round between two linked islands the store holds the offers
    of both, each under its own index. *)
Lemma destination_store_single_own_entry_witness :
  single_own_entry (m_migr_map (run Inputs.two_linked_islands Inputs.one_round)).
Proof.
  apply (destination_store_single_own_entry
           Inputs.two_linked_islands Inputs.one_round).
  - reflexivity.
  - intros v inner Hv. cbn in Hv. rewrite lookup_empty in Hv. discriminate Hv.
Defined.

(** Three islands built without a topology: one round leaves no trace. *)
Lemma default_topology_is_unconnected_witness :
  m_topology Inputs.three_default_islands
  = Nat.iter 3 topology_push_back unconnected
  /\ (forall v,
        get_neighbors
          (m_topology (run Inputs.three_default_islands Inputs.one_round)) v
        = ∅)
  /\ m_migr_hist (run Inputs.three_default_islands Inputs.one_round) = []
  /\ (forall dst subset,
        m_container
          (pre_evolution dst subset
             (run Inputs.three_default_islands Inputs.one_round))
        = m_container (run Inputs.three_default_islands Inputs.one_round))
  /\ (forall src rnd,
        post_evolution src rnd
          (run Inputs.three_default_islands Inputs.one_round)
        = run Inputs.three_default_islands Inputs.one_round).
Proof.
  apply (default_topology_is_unconnected
           (Problem.dtlz3 5 3) Inputs.identity_algorithm 3 1
           (Some broadcast) (Some source) Inputs.one_round).
  reflexivity.
Defined.

(** Two linked islands: island 1 takes the one individual that island 0
    offers, and the log holds the item (1, 0, 1). *)
Lemma history_items_appended_in_arrival_order_witness :
  m_migr_hist (run Inputs.two_linked_islands Inputs.one_round) = [(1, 0, 1)]%nat.
Proof.
  exact (proj2 (history_items_appended_in_arrival_order
                  Inputs.two_linked_islands)
               [] Inputs.one_round eq_refl).
Defined.

(** ** The objective function of DTLZ3 *)

Import Dtlz3.

(** *** Loops *)

Lemma for_loop_fold {S : Type} (first bound : Z)
    (body : Z -> S -> execution S) (s : S) :
  for_loop first bound body s
  = fold_left (fun (acc : execution S) (n : nat) =>
                 s' ← acc; body (first + Z.of_nat n) s')
              (seq 0 (Z.to_nat (bound - first))) (Completed s).
Proof.
  unfold for_loop. destruct (Z.leb_spec bound first); [| reflexivity].
  replace (Z.to_nat (bound - first)) with 0%nat by lia. reflexivity.
Qed.

Lemma fold_out_of_bounds {S : Type} (body : nat -> S -> execution S)
    (l : list nat) :
  fold_left (fun (acc : execution S) (n : nat) => s' ← acc; body n s')
            l OutOfBounds
  = OutOfBounds.
Proof. induction l as [| n l IH]; [reflexivity | exact IH]. Qed.

(** A loop whose body completes and keeps an invariant completes, in a
    state that satisfies the invariant. *)
Lemma loop_invariant {S : Type} (body : nat -> S -> execution S)
    (P : nat -> S -> Prop) (n : nat) (s : S) :
  P 0%nat s ->
  (forall k t, (k < n)%nat -> P k t ->
               exists t', body k t = Completed t' /\ P (Datatypes.S k) t') ->
  exists t,
    fold_left (fun (acc : execution S) (k : nat) => s' ← acc; body k s')
              (seq 0 n) (Completed s)
    = Completed t
    /\ P n t.
Proof.
  intros Hstart. induction n as [| n IH]; intros Hbody.
  - exists s. split; [reflexivity | exact Hstart].
  - destruct IH as (t & Hfold & Ht).
    { intros k u Hk. apply Hbody. lia. }
    destruct (Hbody n t ltac:(lia) Ht) as (t' & Hstep & Ht').
    exists t'. split; [| exact Ht'].
    rewrite seq_S, fold_left_app, Hfold. cbn. exact Hstep.
Qed.

(** A loop whose body goes out of bounds in round [k], after [k] rounds
    that complete, goes out of bounds. *)
Lemma loop_out_of_bounds {S : Type} (body : nat -> S -> execution S)
    (P : nat -> S -> Prop) (n k : nat) (s : S) :
  (k < n)%nat ->
  P 0%nat s ->
  (forall j t, (j < k)%nat -> P j t ->
               exists t', body j t = Completed t' /\ P (Datatypes.S j) t') ->
  (forall t, P k t -> body k t = OutOfBounds) ->
  fold_left (fun (acc : execution S) (j : nat) => s' ← acc; body j s')
            (seq 0 n) (Completed s)
  = OutOfBounds.
Proof.
  intros Hk Hstart Hbody Hfail.
  destruct (loop_invariant body P k s Hstart Hbody) as (t & Hfold & Ht).
  replace n with (k + (1 + (n - k - 1)))%nat by lia.
  rewrite seq_app, fold_left_app, Hfold. cbn [seq fold_left Nat.add].
  cbn. rewrite (Hfail t Ht). apply fold_out_of_bounds.
Qed.

(** *** Reading and writing vectors *)

Lemma read_lookup (v : list Double.double) (i : nat) (d : Double.double) :
  v !! i = Some d -> read v (Z.of_nat i) = Completed d.
Proof.
  intros Hd. unfold read, vsize.
  assert (i < List.length v)%nat by (eapply lookup_lt_Some; exact Hd).
  replace ((0 <=? Z.of_nat i) && (Z.of_nat i <? Z.of_nat (List.length v)))
    with true by (symmetry; apply andb_true_iff; split;
                  [apply Z.leb_le | apply Z.ltb_lt]; lia).
  rewrite Nat2Z.id, Hd. reflexivity.
Qed.

Lemma read_out_of_bounds (v : list Double.double) (i : nat) :
  (List.length v <= i)%nat -> read v (Z.of_nat i) = OutOfBounds.
Proof.
  intros Hi. unfold read, vsize.
  replace (Z.of_nat i <? Z.of_nat (List.length v)) with false
    by (symmetry; apply Z.ltb_ge; lia).
  rewrite andb_false_r. reflexivity.
Qed.

Lemma write_insert (v : list Double.double) (i : nat) (d : Double.double) :
  (i < List.length v)%nat ->
  write v (Z.of_nat i) d = Completed (<[i := d]> v).
Proof.
  intros Hi. unfold write, vsize.
  replace ((0 <=? Z.of_nat i) && (Z.of_nat i <? Z.of_nat (List.length v)))
    with true by (symmetry; apply andb_true_iff; split;
                  [apply Z.leb_le | apply Z.ltb_lt]; lia).
  rewrite Nat2Z.id. reflexivity.
Qed.

Lemma write_out_of_bounds (v : list Double.double) (i : nat)
    (d : Double.double) :
  (List.length v <= i)%nat -> write v (Z.of_nat i) d = OutOfBounds.
Proof.
  intros Hi. unfold write, vsize.
  replace (Z.of_nat i <? Z.of_nat (List.length v)) with false
    by (symmetry; apply Z.ltb_ge; lia).
  rewrite andb_false_r. reflexivity.
Qed.

Lemma fold_left_ext_in {A B : Type} (f g : A -> B -> A) (l : list B) (a : A) :
  (forall acc b, f acc b = g acc b) -> fold_left f l a = fold_left g l a.
Proof.
  intros Hfg. revert a. induction l as [| b l IH]; intros a; cbn;
    [reflexivity | rewrite Hfg; apply IH].
Qed.

(** A loop over the indices from [a] below [b], by rounds. *)
Lemma for_loop_rounds {S : Type} (a b : nat)
    (body : Z -> S -> execution S) (s : S) :
  for_loop (Z.of_nat a) (Z.of_nat b) body s
  = fold_left (fun (acc : execution S) (k : nat) =>
                 s' ← acc; (fun k t => body (Z.of_nat (a + k)) t) k s')
              (seq 0 (b - a)) (Completed s).
Proof.
  rewrite for_loop_fold.
  replace (Z.to_nat (Z.of_nat b - Z.of_nat a)) with (b - a)%nat by lia.
  apply fold_left_ext_in. intros acc k. rewrite Nat2Z.inj_add. reflexivity.
Qed.

Section ObjectiveFunctionProperties.

Context `{Libm}.

(** The loop that collects [x_M]: the variables from index [a] on. *)
Lemma collect_loop (x : list Double.double) (a : nat) :
  for_loop (Z.of_nat a) (vsize x)
    (fun i x_M => xi ← read x i; Completed (x_M ++ [xi])) []
  = Completed (drop a x).
Proof.
  unfold vsize. rewrite for_loop_rounds.
  destruct (loop_invariant
              (fun k t => xi ← read x (Z.of_nat (a + k)); Completed (t ++ [xi]))
              (fun k t => t = take k (drop a x))
              (List.length x - a) []) as (t & Hfold & Ht).
  - reflexivity.
  - intros k t Hk ->.
    destruct (lookup_lt_is_Some_2 x (a + k) ltac:(lia)) as [xi Hxi].
    exists (take k (drop a x) ++ [xi]). split.
    + rewrite (read_lookup x (a + k) xi Hxi). reflexivity.
    + symmetry. apply take_S_r. rewrite lookup_drop. exact Hxi.
  - rewrite Hfold, Ht. f_equal. apply take_ge. rewrite length_drop. lia.
Qed.

Lemma cos_product_S (x : list Double.double) (k : nat)
    (start xk : Double.double) :
  x !! k = Some xk ->
  cos_product x (S k) start
  = mul (cos_product x k start) (cos (mul xk (div pi two))).
Proof.
  intros Hxk. unfold cos_product.
  change (firstn (S k) x) with (take (S k) x).
  rewrite (take_S_r x k xk Hxk), fold_left_app. reflexivity.
Qed.

(** The loop that multiplies entry [i] of [f] by the cosines of the first
    [n] variables. *)
Lemma cosine_loop (f x : list Double.double) (i n : nat)
    (start : Double.double) :
  (i < List.length f)%nat -> (n <= List.length x)%nat ->
  for_loop 0 (Z.of_nat n)
    (fun j f =>
       fi ← read f (Z.of_nat i);
       xj ← read x j;
       write f (Z.of_nat i) (mul fi (cos (mul xj (div pi two)))))
    (<[i := start]> f)
  = Completed (<[i := cos_product x n start]> f).
Proof.
  intros Hi Hn. change 0 with (Z.of_nat 0). rewrite for_loop_rounds.
  rewrite Nat.sub_0_r.
  destruct (loop_invariant
              (fun k t =>
                 fi ← read t (Z.of_nat i);
                 xj ← read x (Z.of_nat (0 + k));
                 write t (Z.of_nat i) (mul fi (cos (mul xj (div pi two)))))
              (fun k t => t = <[i := cos_product x k start]> f)
              n (<[i := start]> f)) as (t & Hfold & Ht).
  - reflexivity.
  - intros k t Hk ->.
    destruct (lookup_lt_is_Some_2 x k ltac:(lia)) as [xk Hxk].
    exists (<[i := cos_product x (S k) start]> f). split; [| reflexivity].
    rewrite (read_lookup _ i (cos_product x k start))
      by (apply list_lookup_insert_eq; exact Hi).
    cbn [Nat.add]. rewrite (read_lookup x k xk Hxk).
    cbn. rewrite write_insert by (rewrite length_insert; exact Hi).
    rewrite list_insert_insert_eq, (cos_product_S x k start xk Hxk).
    reflexivity.
  - rewrite Hfold, Ht. reflexivity.
Qed.

(** The same loop goes out of bounds when there are fewer than [n]
    variables. *)
Lemma cosine_loop_out_of_bounds (f x : list Double.double) (i n : nat)
    (start : Double.double) :
  (i < List.length f)%nat -> (List.length x < n)%nat ->
  for_loop 0 (Z.of_nat n)
    (fun j f =>
       fi ← read f (Z.of_nat i);
       xj ← read x j;
       write f (Z.of_nat i) (mul fi (cos (mul xj (div pi two)))))
    (<[i := start]> f)
  = OutOfBounds.
Proof.
  intros Hi Hn. change 0 with (Z.of_nat 0). rewrite for_loop_rounds.
  rewrite Nat.sub_0_r.
  apply (loop_out_of_bounds
           (fun k t =>
              fi ← read t (Z.of_nat i);
              xj ← read x (Z.of_nat (0 + k));
              write t (Z.of_nat i) (mul fi (cos (mul xj (div pi two)))))
           (fun k t => t = <[i := cos_product x k start]> f)
           n (List.length x)).
  - exact Hn.
  - reflexivity.
  - intros k t Hk ->.
    destruct (lookup_lt_is_Some_2 x k ltac:(lia)) as [xk Hxk].
    exists (<[i := cos_product x (S k) start]> f). split; [| reflexivity].
    rewrite (read_lookup _ i (cos_product x k start))
      by (apply list_lookup_insert_eq; exact Hi).
    cbn [Nat.add]. rewrite (read_lookup x k xk Hxk).
    cbn. rewrite write_insert by (rewrite length_insert; exact Hi).
    rewrite list_insert_insert_eq, (cos_product_S x k start xk Hxk).
    reflexivity.
  - intros t ->.
    rewrite (read_lookup _ i (cos_product x (List.length x) start))
      by (apply list_lookup_insert_eq; exact Hi).
    cbn [Nat.add]. rewrite read_out_of_bounds by lia. reflexivity.
Qed.

Lemma to_size_t_of_nat (n : nat) :
  Z.of_nat n <= MachineInt.SIZE_MAX ->
  MachineInt.to_size_t (Z.of_nat n) = Z.of_nat n.
Proof.
  unfold MachineInt.SIZE_MAX, MachineInt.to_size_t. intros Hn.
  apply Z.mod_small. lia.
Qed.

(** One round of the loop over the objectives [1 .. m - 2]: entry [i] of
    [f] becomes objective [i]. *)
Lemma shape_round (t x : list Double.double) (g : Double.double)
    (m i : nat) :
  List.length t = m -> (1 <= i)%nat -> (i + 1 < m)%nat ->
  (m - 1 <= List.length x)%nat -> Z.of_nat m <= MachineInt.SIZE_MAX ->
  (t ← write t (Z.of_nat i) (add Double.one g);
   t ← for_loop 0 (MachineInt.to_size_t (vsize t - (Z.of_nat i + 1)))
         (fun j f =>
            fi ← read f (Z.of_nat i);
            xj ← read x j;
            write f (Z.of_nat i) (mul fi (cos (mul xj (div pi two)))))
         t;
   fi ← read t (Z.of_nat i);
   xk ← read x (MachineInt.to_size_t (vsize t - (Z.of_nat i + 1)));
   write t (Z.of_nat i) (mul fi (sin (mul xk (div pi two)))))
  = Completed (<[i := objective m x g i]> t).
Proof.
  intros Hlen Hi Him Hx Hmax.
  rewrite write_insert by lia. cbn [mbind execution_bind].
  assert (Hsize : forall d,
            MachineInt.to_size_t (vsize (<[i := d]> t) - (Z.of_nat i + 1))
            = Z.of_nat (m - 1 - i)).
  { intros d. unfold vsize. rewrite length_insert, Hlen.
    replace (Z.of_nat m - (Z.of_nat i + 1)) with (Z.of_nat (m - 1 - i))
      by lia.
    apply to_size_t_of_nat. lia. }
  rewrite Hsize, cosine_loop by lia. cbn [mbind execution_bind].
  rewrite (read_lookup _ i (cos_product x (m - 1 - i) (add Double.one g)))
    by (apply list_lookup_insert_eq; lia).
  cbn [mbind execution_bind]. rewrite Hsize.
  destruct (lookup_lt_is_Some_2 x (m - 1 - i) ltac:(lia)) as [xk Hxk].
  rewrite (read_lookup x (m - 1 - i) xk Hxk). cbn [mbind execution_bind].
  rewrite write_insert by (rewrite length_insert; lia).
  rewrite list_insert_insert_eq. do 2 f_equal.
  unfold objective. destruct i as [| i]; [lia |].
  rewrite (nth_lookup_Some x (m - 1 - S i) Double.zero xk Hxk). reflexivity.
Qed.

(** The loop over the objectives [1 .. m - 2]. *)
Lemma shape_loop (f x : list Double.double) (g : Double.double) (m : nat) :
  List.length f = m -> (1 <= m)%nat ->
  (m - 1 <= List.length x)%nat -> Z.of_nat m <= MachineInt.SIZE_MAX ->
  exists t,
    for_loop 1 (Z.of_nat (m - 1))
      (fun i f =>
         f ← write f i (add Double.one g);
         f ← for_loop 0 (MachineInt.to_size_t (vsize f - (i + 1)))
               (fun j f =>
                  fi ← read f i;
                  xj ← read x j;
                  write f i (mul fi (cos (mul xj (div pi two)))))
               f;
         fi ← read f i;
         xk ← read x (MachineInt.to_size_t (vsize f - (i + 1)));
         write f i (mul fi (sin (mul xk (div pi two)))))
      f
    = Completed t
    /\ List.length t = m
    /\ forall idx : nat,
         t !! idx = if decide (1 <= idx < m - 1)%nat
                    then Some (objective m x g idx)
                    else f !! idx.
Proof.
  intros Hlen Hm Hx Hmax. change 1 with (Z.of_nat 1).
  rewrite for_loop_rounds.
  destruct (loop_invariant
              (fun k f =>
                 (fun i f =>
                    f ← write f i (add Double.one g);
                    f ← for_loop 0
                          (MachineInt.to_size_t (vsize f - (i + 1)))
                          (fun j f =>
                             fi ← read f i;
                             xj ← read x j;
                             write f i (mul fi (cos (mul xj (div pi two)))))
                          f;
                    fi ← read f i;
                    xk ← read x (MachineInt.to_size_t (vsize f - (i + 1)));
                    write f i (mul fi (sin (mul xk (div pi two)))))
                   (Z.of_nat (1 + k)) f)
              (fun k t =>
                 List.length t = m
                 /\ forall idx : nat,
                      t !! idx = if decide (1 <= idx < 1 + k)%nat
                                 then Some (objective m x g idx)
                                 else f !! idx)
              (m - 1 - 1) f) as (t & Hfold & Hlent & Ht).
  - split; [exact Hlen |]. intros idx.
    destruct (decide (1 <= idx < 1 + 0)%nat); [lia | reflexivity].
  - intros k t Hk [Hlent Ht].
    exists (<[(1 + k)%nat := objective m x g (1 + k)]> t). split.
    + cbv beta. apply shape_round; lia.
    + split; [rewrite length_insert; exact Hlent |]. intros idx.
      destruct (decide (idx = 1 + k)%nat) as [-> | Hne].
      * rewrite list_lookup_insert_eq by lia.
        destruct (decide (1 <= 1 + k < 1 + S k)%nat); [reflexivity | lia].
      * rewrite list_lookup_insert_ne by lia. rewrite Ht.
        destruct (decide (1 <= idx < 1 + k)%nat),
                 (decide (1 <= idx < 1 + S k)%nat); try reflexivity; lia.
  - exists t. split; [exact Hfold |]. split; [exact Hlent |].
    intros idx. rewrite Ht.
    destruct (decide (1 <= idx < 1 + (m - 1 - 1))%nat),
             (decide (1 <= idx < m - 1)%nat); try reflexivity; lia.
Qed.

Lemma pagmo_assert_passes (checked condition : bool) :
  checked = false \/ condition = true ->
  pagmo_assert checked condition = Completed tt.
Proof. intros [-> | ->]; [reflexivity | destruct checked; reflexivity]. Qed.

Lemma pagmo_assert_fails (condition : bool) :
  condition = false -> pagmo_assert true condition = AssertionFailed.
Proof. intros ->. reflexivity. Qed.

Lemma to_size_t_pred (m : nat) :
  (1 <= m)%nat -> Z.of_nat m <= MachineInt.SIZE_MAX ->
  MachineInt.to_size_t (Z.of_nat m - 1) = Z.of_nat (m - 1).
Proof.
  intros Hm Hmax.
  replace (Z.of_nat m - 1) with (Z.of_nat (m - 1)) by lia.
  apply to_size_t_of_nat. lia.
Qed.

Lemma objectives_lookup (m : nat) (x : list Double.double) (i : nat) :
  (i < m)%nat ->
  objectives m x !! i
  = Some (objective m x (g_func (drop (m - 1) x)) i).
Proof.
  intros Hi. unfold objectives.
  change (map ?f ?l) with (f <$> l).
  rewrite list_lookup_fmap, lookup_seq_lt by exact Hi. reflexivity.
Qed.

Lemma objectives_length (m : nat) (x : list Double.double) :
  List.length (objectives m x) = m.
Proof. unfold objectives. rewrite length_map, length_seq. reflexivity. Qed.

(** The function completes with the objectives in closed form. *)
Lemma objfun_impl_completed (checked : bool) (self : Problem.base)
    (f x : list Double.double) :
  checked = false
  \/ (vsize f = Problem.get_f_dimension self
      /\ vsize x = Problem.get_dimension self) ->
  (1 <= List.length f)%nat -> (1 <= List.length x)%nat ->
  (List.length f - 1 <= List.length x)%nat ->
  vsize f <= MachineInt.SIZE_MAX ->
  objfun_impl checked self f x = Completed (objectives (List.length f) x).
Proof.
  intros Hassert Hf Hx Hfx Hmax. unfold objfun_impl.
  rewrite !pagmo_assert_passes
    by (destruct Hassert as [-> | [Hfdim Hdim]];
        [left; reflexivity | right; apply Z.eqb_eq; assumption]).
  cbn [mbind execution_bind].
  set (m := List.length f) in *.
  assert (Hstart : MachineInt.to_size_t (vsize f - 1) = Z.of_nat (m - 1))
    by (apply to_size_t_pred; assumption).
  rewrite Hstart, collect_loop. cbn [mbind execution_bind].
  set (g := g_func (drop (m - 1) x)).
  change (write f 0) with (write f (Z.of_nat 0)).
  rewrite write_insert by lia. cbn [mbind execution_bind].
  assert (Hsize : forall (i : nat) d,
            MachineInt.to_size_t (vsize (<[i := d]> f) - 1)
            = Z.of_nat (m - 1)).
  { intros i d. unfold vsize. rewrite length_insert.
    apply to_size_t_pred; assumption. }
  rewrite Hsize.
  pose proof (cosine_loop f x 0 (m - 1) (add Double.one g)
                ltac:(lia) Hfx) as Hcos.
  change (Z.of_nat 0) with 0 in Hcos. rewrite Hcos. clear Hcos.
  cbn [mbind execution_bind]. rewrite Hsize.
  destruct (shape_loop (<[0%nat := cos_product x (m - 1) (add Double.one g)]> f)
              x g m) as (t & Hloop & Hlen & Ht);
    [rewrite length_insert; reflexivity | lia | lia | exact Hmax |].
  rewrite Hloop. cbn [mbind execution_bind].
  destruct (lookup_lt_is_Some_2 x 0 ltac:(lia)) as [x0 Hx0].
  pose proof (read_lookup x 0 x0 Hx0) as Hread.
  change (Z.of_nat 0) with 0 in Hread. rewrite Hread. clear Hread.
  cbn [mbind execution_bind].
  replace (vsize t) with (vsize f) by (unfold vsize; rewrite Hlen; reflexivity).
  rewrite Hstart, write_insert by lia.
  f_equal. apply list_eq. intros idx.
  destruct (decide (idx < m)%nat) as [Hidx | Hidx].
  - rewrite objectives_lookup by exact Hidx. fold g.
    destruct (decide (idx = m - 1)%nat) as [-> | Hlast].
    + rewrite list_lookup_insert_eq by lia. f_equal.
      unfold objective.
      replace (m - 1 - (m - 1))%nat with 0%nat by lia.
      rewrite (nth_lookup_Some x 0 Double.zero x0 Hx0).
      destruct (m - 1)%nat as [| i] eqn:Hm1.
      * destruct m as [| [| m']]; [lia | reflexivity | lia].
      * reflexivity.
    + rewrite list_lookup_insert_ne by lia. rewrite Ht.
      destruct (decide (1 <= idx < m - 1)%nat) as [Hmid | Hfirst];
        [reflexivity |].
      assert (idx = 0%nat) as -> by lia.
      rewrite list_lookup_insert_eq by lia. f_equal.
      unfold objective. destruct m as [| [| m']]; [lia | lia |].
      reflexivity.
  - rewrite !(proj2 (lookup_ge_None _ _));
      [reflexivity | rewrite objectives_length; lia
       | rewrite length_insert; lia].
Qed.

Lemma for_loop_empty {S : Type} (first bound : Z)
    (body : Z -> S -> execution S) (s : S) :
  bound <= first -> for_loop first bound body s = Completed s.
Proof.
  intros Hle. unfold for_loop.
  destruct (Z.leb_spec bound first); [reflexivity | lia].
Qed.

(** The function fails an assertion when one is checked and violated. *)
Lemma objfun_impl_assertion_failed (self : Problem.base)
    (f x : list Double.double) :
  vsize f <> Problem.get_f_dimension self
  \/ vsize x <> Problem.get_dimension self ->
  objfun_impl true self f x = AssertionFailed.
Proof.
  intros Hsizes. unfold objfun_impl.
  destruct (Z.eqb_spec (vsize f) (Problem.get_f_dimension self)) as [Hf | Hf];
    [| reflexivity].
  destruct (Z.eqb_spec (vsize x) (Problem.get_dimension self)) as [Hx | Hx];
    [| reflexivity].
  destruct Hsizes; contradiction.
Qed.

(** The function leaves its vectors when [f] is empty, [x] is empty or
    [x] has fewer than [f.size() - 1] entries. *)
Lemma objfun_impl_out_of_bounds (checked : bool) (self : Problem.base)
    (f x : list Double.double) :
  checked = false
  \/ (vsize f = Problem.get_f_dimension self
      /\ vsize x = Problem.get_dimension self) ->
  vsize x <= MachineInt.SIZE_MAX -> vsize f <= MachineInt.SIZE_MAX ->
  List.length f = 0%nat \/ List.length x = 0%nat
  \/ (List.length x < List.length f - 1)%nat ->
  objfun_impl checked self f x = OutOfBounds.
Proof.
  intros Hassert Hxmax Hfmax Hsizes. unfold objfun_impl.
  rewrite !pagmo_assert_passes
    by (destruct Hassert as [-> | [Hfdim Hdim]];
        [left; reflexivity | right; apply Z.eqb_eq; assumption]).
  cbn [mbind execution_bind].
  destruct (decide (List.length f = 0%nat)) as [Hempty | Hf].
  { apply length_zero_iff_nil in Hempty. subst f.
    rewrite for_loop_empty; [reflexivity |].
    change (MachineInt.to_size_t (vsize [] - 1)) with MachineInt.SIZE_MAX.
    exact Hxmax. }
  set (m := List.length f) in *.
  assert (Hstart : MachineInt.to_size_t (vsize f - 1) = Z.of_nat (m - 1))
    by (apply to_size_t_pred; [lia | assumption]).
  rewrite Hstart, collect_loop. cbn [mbind execution_bind].
  set (g := g_func (drop (m - 1) x)).
  change (write f 0) with (write f (Z.of_nat 0)).
  rewrite write_insert by lia. cbn [mbind execution_bind].
  assert (Hsize : forall (i : nat) d,
            MachineInt.to_size_t (vsize (<[i := d]> f) - 1)
            = Z.of_nat (m - 1)).
  { intros i d. unfold vsize. rewrite length_insert.
    apply to_size_t_pred; [lia | assumption]. }
  rewrite Hsize.
  destruct (decide (List.length x < m - 1)%nat) as [Hshort | Hlong].
  { pose proof (cosine_loop_out_of_bounds f x 0 (m - 1) (add Double.one g)
                  ltac:(lia) Hshort) as Hcos.
    change (Z.of_nat 0) with 0 in Hcos. rewrite Hcos. reflexivity. }
  assert (Hx : List.length x = 0%nat) by lia.
  assert (Hm : (m - 1 = 0)%nat) by lia.
  apply length_zero_iff_nil in Hx. subst x. rewrite Hm.
  rewrite for_loop_empty by reflexivity. cbn [mbind execution_bind].
  rewrite Hsize, Hm, for_loop_empty by (cbn; lia). reflexivity.
Qed.

(** The three outcomes of the function, by the sizes of its vectors. *)
Lemma objfun_impl_cases (checked : bool) (self : Problem.base)
    (f x : list Double.double) :
  vsize f <= MachineInt.SIZE_MAX -> vsize x <= MachineInt.SIZE_MAX ->
  objfun_impl checked self f x
  = if checked && negb ((vsize f =? Problem.get_f_dimension self)
                        && (vsize x =? Problem.get_dimension self))
    then AssertionFailed
    else if (1 <=? vsize f) && (1 <=? vsize x) && (vsize f - 1 <=? vsize x)
         then Completed (objectives (List.length f) x)
         else OutOfBounds.
Proof.
  intros Hfmax Hxmax.
  assert (Hassert :
            checked && negb ((vsize f =? Problem.get_f_dimension self)
                             && (vsize x =? Problem.get_dimension self))
            = false ->
            checked = false
            \/ (vsize f = Problem.get_f_dimension self
                /\ vsize x = Problem.get_dimension self)).
  { destruct checked; [| left; reflexivity]. cbn [andb].
    intros Hsizes. right. apply negb_false_iff, andb_true_iff in Hsizes.
    destruct Hsizes as [Hf Hx]. split; apply Z.eqb_eq; assumption. }
  destruct (checked && negb _) eqn:Hfail.
  - apply andb_true_iff in Hfail. destruct Hfail as [-> Hsizes].
    apply objfun_impl_assertion_failed.
    apply negb_true_iff, andb_false_iff in Hsizes.
    destruct Hsizes as [Hf | Hx]; [left | right]; apply Z.eqb_neq; assumption.
  - specialize (Hassert eq_refl).
    destruct ((1 <=? vsize f) && (1 <=? vsize x) && (vsize f - 1 <=? vsize x))
      eqn:Hsizes.
    + apply andb_true_iff in Hsizes. destruct Hsizes as [Hsizes Hfx].
      apply andb_true_iff in Hsizes. destruct Hsizes as [Hf Hx].
      apply Z.leb_le in Hf, Hx, Hfx. unfold vsize in Hf, Hx, Hfx.
      apply objfun_impl_completed; [exact Hassert | lia | lia | lia |].
      exact Hfmax.
    + apply objfun_impl_out_of_bounds; [exact Hassert | assumption ..|].
      unfold vsize in Hsizes.
      destruct (decide (List.length f = 0%nat)) as [Hf | Hf];
        [left; exact Hf | right].
      destruct (decide (List.length x = 0%nat)) as [Hx | Hx];
        [left; exact Hx | right].
      apply andb_false_iff in Hsizes. destruct Hsizes as [Hsizes | Hfx].
      * apply andb_false_iff in Hsizes.
        destruct Hsizes as [Hle | Hle]; apply Z.leb_gt in Hle; lia.
      * apply Z.leb_gt in Hfx. lia.
Qed.

(** Objective [i] reads the first [m - 1] variables only, the others enter
    through [g]. *)
Lemma objective_position_variables (m : nat) (x x' : list Double.double)
    (g : Double.double) (i : nat) :
  (2 <= m)%nat -> (i < m)%nat ->
  take (m - 1) x = take (m - 1) x' ->
  objective m x g i = objective m x' g i.
Proof.
  intros Hm Hi Htake.
  assert (Hcos : forall n start, (n <= m - 1)%nat ->
                   cos_product x n start = cos_product x' n start).
  { intros n start Hn. unfold cos_product.
    change (firstn n x) with (take n x).
    change (firstn n x') with (take n x').
    replace n with (n `min` (m - 1))%nat by lia.
    rewrite <- !take_take, Htake. reflexivity. }
  assert (Hnth : forall j, (j < m - 1)%nat ->
                   nth j x Double.zero = nth j x' Double.zero).
  { intros j Hj. rewrite !nth_lookup.
    rewrite <- (lookup_take_lt x (m - 1) j Hj), Htake.
    rewrite lookup_take_lt by exact Hj. reflexivity. }
  unfold objective. destruct i as [| i].
  - destruct m as [| [| m']]; [lia | lia |]. apply Hcos. lia.
  - rewrite Hcos, Hnth by lia. reflexivity.
Qed.

Lemma dtlz3_dimensions (k fdim : Z) :
  1 <= k -> 1 <= fdim -> k + fdim - 1 <= MachineInt.INT_MAX ->
  Problem.get_dimension (Problem.dtlz3 k fdim) = k + fdim - 1
  /\ Problem.get_f_dimension (Problem.dtlz3 k fdim) = fdim.
Proof.
  unfold MachineInt.INT_MAX. intros Hk Hf Hsum.
  unfold Problem.dtlz3, Problem.get_dimension, Problem.get_f_dimension.
  cbn [Problem.set_ub Problem.set_lb Problem.base_ctor
       Problem.m_dimension Problem.m_f_dimension].
  rewrite (to_size_t_small k), (to_size_t_small 1),
    (to_size_t_small (k + fdim)), (to_size_t_small (k + fdim - 1)),
    !to_int_small by lia.
  split; reflexivity.
Qed.

(** X5: [objfun_impl] returns exactly when its assertions hold or are
    compiled out, [f] and [x] are not empty and [x] has at least
    [f.size() - 1] entries; [f] then holds the objectives in closed form.
    With [m = f.size()] and [g] the value of [g_func] on the variables from
    index [m - 1] on: when [m >= 2], entry 0 is [(1 + g)] times the cosines
    of the first [m - 1] variables and entry [i], for [1 <= i <= m - 1], is
    [(1 + g)] times the cosines of the first [m - 1 - i] variables times
    the sine of variable [m - 1 - i]; when [m = 1], entry 0 is [(1 + g)]
    times the sine of variable 0. *)
Theorem objfun_impl_completes_iff (checked : bool) (self : Problem.base)
    (f x r : list Double.double) :
  vsize f <= MachineInt.SIZE_MAX -> vsize x <= MachineInt.SIZE_MAX ->
  objfun_impl checked self f x = Completed r
  <-> (checked = false
       \/ (vsize f = Problem.get_f_dimension self
           /\ vsize x = Problem.get_dimension self))
      /\ 1 <= vsize f /\ 1 <= vsize x /\ vsize f - 1 <= vsize x
      /\ r = objectives (List.length f) x.
Proof.
  intros Hfmax Hxmax. rewrite objfun_impl_cases by assumption. split.
  - destruct checked; cbn [andb].
    + destruct (Z.eqb_spec (vsize f) (Problem.get_f_dimension self));
        [| discriminate].
      destruct (Z.eqb_spec (vsize x) (Problem.get_dimension self));
        [| discriminate].
      cbn [andb negb].
      destruct (Z.leb_spec 1 (vsize f)); [| discriminate].
      destruct (Z.leb_spec 1 (vsize x)); [| discriminate].
      destruct (Z.leb_spec (vsize f - 1) (vsize x)); [| discriminate].
      intros [= <-]. repeat split; try assumption. right. split; assumption.
    + destruct (Z.leb_spec 1 (vsize f)); [| discriminate].
      destruct (Z.leb_spec 1 (vsize x)); [| discriminate].
      destruct (Z.leb_spec (vsize f - 1) (vsize x)); [| discriminate].
      intros [= <-]. repeat split; try assumption. left. reflexivity.
  - intros (Hassert & Hf & Hx & Hfx & ->).
    replace (checked && negb _) with false.
    + apply Z.leb_le in Hf, Hx, Hfx. rewrite Hf, Hx, Hfx. reflexivity.
    + destruct Hassert as [-> | [Hfdim Hdim]]; [reflexivity |].
      apply Z.eqb_eq in Hfdim, Hdim. rewrite Hfdim, Hdim.
      destruct checked; reflexivity.
Qed.

(** X6: [objfun_impl] reads or writes outside its vectors exactly when no
    assertion stops it (they hold or are compiled out) and [f] is empty,
    [x] is empty, or [x] has fewer than [f.size() - 1] entries. *)
Theorem objfun_impl_out_of_bounds_iff (checked : bool) (self : Problem.base)
    (f x : list Double.double) :
  vsize f <= MachineInt.SIZE_MAX -> vsize x <= MachineInt.SIZE_MAX ->
  objfun_impl checked self f x = OutOfBounds
  <-> (checked = false
       \/ (vsize f = Problem.get_f_dimension self
           /\ vsize x = Problem.get_dimension self))
      /\ (vsize f = 0 \/ vsize x = 0 \/ vsize x < vsize f - 1).
Proof.
  intros Hfmax Hxmax. rewrite objfun_impl_cases by assumption.
  assert (0 <= vsize f /\ 0 <= vsize x) as [Hf0 Hx0] by (unfold vsize; lia).
  split.
  - destruct checked; cbn [andb].
    + destruct (Z.eqb_spec (vsize f) (Problem.get_f_dimension self));
        [| discriminate].
      destruct (Z.eqb_spec (vsize x) (Problem.get_dimension self));
        [| discriminate].
      cbn [andb negb].
      destruct (Z.leb_spec 1 (vsize f)); cbn [andb];
        [| intros _; split; [right; split; assumption | lia]].
      destruct (Z.leb_spec 1 (vsize x)); cbn [andb];
        [| intros _; split; [right; split; assumption | lia]].
      destruct (Z.leb_spec (vsize f - 1) (vsize x)); [discriminate |].
      intros _. split; [right; split; assumption | lia].
    + destruct (Z.leb_spec 1 (vsize f)); cbn [andb];
        [| intros _; split; [left; reflexivity | lia]].
      destruct (Z.leb_spec 1 (vsize x)); cbn [andb];
        [| intros _; split; [left; reflexivity | lia]].
      destruct (Z.leb_spec (vsize f - 1) (vsize x)); [discriminate |].
      intros _. split; [left; reflexivity | lia].
  - intros [Hassert Hsizes].
    replace (checked && negb _) with false.
    + destruct (Z.leb_spec 1 (vsize f)); cbn [andb]; [| reflexivity].
      destruct (Z.leb_spec 1 (vsize x)); cbn [andb]; [| reflexivity].
      destruct (Z.leb_spec (vsize f - 1) (vsize x)); [lia | reflexivity].
    + destruct Hassert as [-> | [Hfdim Hdim]]; [reflexivity |].
      apply Z.eqb_eq in Hfdim, Hdim. rewrite Hfdim, Hdim.
      destruct checked; reflexivity.
Qed.

(** X7: on a problem built by [dtlz3(k, fdim)] with [k >= 1] and
    [fdim >= 1], the vectors that pass the assertions are the ones on which
    [objfun_impl] stays inside its vectors: with [fdim] entries in [f] and
    [k + fdim - 1] in [x] it returns the objectives, [g] being computed
    from the last [k] variables; with any other sizes the first violated
    assertion fails. *)
Theorem dtlz3_objfun_impl (k fdim : Z) (f x : list Double.double) :
  1 <= k -> 1 <= fdim -> k + fdim - 1 <= MachineInt.INT_MAX ->
  (vsize f = fdim /\ vsize x = k + fdim - 1 ->
   forall checked,
     objfun_impl checked (Problem.dtlz3 k fdim) f x
     = Completed
         (map (objective (List.length f) x
                 (g_func (drop (List.length x - Z.to_nat k) x)))
              (seq 0 (List.length f)))
     /\ List.length (drop (List.length x - Z.to_nat k) x) = Z.to_nat k)
  /\ (~ (vsize f = fdim /\ vsize x = k + fdim - 1) ->
      objfun_impl true (Problem.dtlz3 k fdim) f x = AssertionFailed).
Proof.
  intros Hk Hfdim Hsum.
  destruct (dtlz3_dimensions k fdim Hk Hfdim Hsum) as [Hdim Hfd].
  unfold MachineInt.INT_MAX in Hsum. split.
  - intros [Hf Hx] checked.
    assert (Hlast : (List.length x - Z.to_nat k = List.length f - 1)%nat)
      by (unfold vsize in Hf, Hx; lia).
    rewrite Hlast. split; [| rewrite length_drop; unfold vsize in Hf, Hx; lia].
    apply objfun_impl_completed.
    + right. rewrite Hdim, Hfd. split; assumption.
    + unfold vsize in Hf. lia.
    + unfold vsize in Hx. lia.
    + unfold vsize in Hf, Hx. lia.
    + unfold MachineInt.SIZE_MAX. lia.
  - intros Hsizes. apply objfun_impl_assertion_failed.
    rewrite Hdim, Hfd.
    destruct (decide (vsize f = fdim)) as [Hf | Hf]; [| left; exact Hf].
    right. intros Hx. apply Hsizes. split; assumption.
Qed.

(** X8: [f] is an output only: what it holds on entry is never used, the
    outcome of [objfun_impl] depends on [f] through its size alone. *)
Theorem objfun_impl_overwrites_f (checked : bool) (self : Problem.base)
    (f f' x : list Double.double) :
  vsize f <= MachineInt.SIZE_MAX -> vsize x <= MachineInt.SIZE_MAX ->
  List.length f = List.length f' ->
  objfun_impl checked self f x = objfun_impl checked self f' x.
Proof.
  intros Hfmax Hxmax Hlen.
  assert (Hsize : vsize f' = vsize f) by (unfold vsize; rewrite Hlen; reflexivity).
  rewrite (objfun_impl_cases checked self f x) by assumption.
  rewrite (objfun_impl_cases checked self f' x)
    by (try rewrite Hsize; assumption).
  rewrite Hsize, Hlen. reflexivity.
Qed.

(** X9: with two or more objectives, the variables from index
    [f.size() - 1] on (the distance variables) reach the objectives through
    [g_func] alone: two decision vectors of one size that agree on the
    first [f.size() - 1] variables and have the same [g] give the same
    outcome. *)
Theorem distance_variables_only_through_g (checked : bool)
    (self : Problem.base) (f x x' : list Double.double) :
  vsize f <= MachineInt.SIZE_MAX -> vsize x <= MachineInt.SIZE_MAX ->
  2 <= vsize f ->
  List.length x = List.length x' ->
  take (List.length f - 1) x = take (List.length f - 1) x' ->
  g_func (drop (List.length f - 1) x) = g_func (drop (List.length f - 1) x') ->
  objfun_impl checked self f x = objfun_impl checked self f x'.
Proof.
  intros Hfmax Hxmax Hm Hlen Htake Hg.
  assert (Hsize : vsize x' = vsize x) by (unfold vsize; rewrite Hlen; reflexivity).
  rewrite (objfun_impl_cases checked self f x) by assumption.
  rewrite (objfun_impl_cases checked self f x')
    by (try rewrite Hsize; assumption).
  rewrite Hsize.
  replace (objectives (List.length f) x') with (objectives (List.length f) x);
    [reflexivity |].
  unfold objectives. rewrite <- Hg. apply map_ext_in. intros i Hi.
  apply in_seq in Hi. apply objective_position_variables;
    [unfold vsize in Hm; lia | lia | exact Htake].
Qed.

End ObjectiveFunctionProperties.

(** Seven variables and three objectives, on the problem [dtlz3(5, 3)]. *)
Lemma objfun_impl_completes_iff_witness :
  @objfun_impl Dtlz3Inputs.taylor_libm true (Problem.dtlz3 5 3)
    Dtlz3Inputs.three_objectives Dtlz3Inputs.seven_halves
  = Completed (@objectives Dtlz3Inputs.taylor_libm 3 Dtlz3Inputs.seven_halves).
Proof.
  apply (@objfun_impl_completes_iff Dtlz3Inputs.taylor_libm true
           (Problem.dtlz3 5 3) Dtlz3Inputs.three_objectives
           Dtlz3Inputs.seven_halves);
    [vm_compute; discriminate | vm_compute; discriminate |].
  split; [right; split; reflexivity |].
  repeat split; vm_compute; discriminate.
Defined.

(** One variable for three objectives, with the assertions compiled out. *)
Lemma objfun_impl_out_of_bounds_iff_witness :
  @objfun_impl Dtlz3Inputs.taylor_libm false (Problem.dtlz3 5 3)
    Dtlz3Inputs.three_objectives [half]
  = OutOfBounds.
Proof.
  apply (@objfun_impl_out_of_bounds_iff Dtlz3Inputs.taylor_libm false
           (Problem.dtlz3 5 3) Dtlz3Inputs.three_objectives [half]);
    [vm_compute; discriminate | vm_compute; discriminate |].
  split; [left; reflexivity |]. right. right. reflexivity.
Defined.

(** [dtlz3(5, 3)]: [g] is computed from the last five of seven variables. *)
Lemma dtlz3_objfun_impl_witness :
  @objfun_impl Dtlz3Inputs.taylor_libm true (Problem.dtlz3 5 3)
    Dtlz3Inputs.three_objectives Dtlz3Inputs.seven_halves
  = Completed
      (map (@objective Dtlz3Inputs.taylor_libm 3 Dtlz3Inputs.seven_halves
              (@g_func Dtlz3Inputs.taylor_libm (repeat half 5)))
           (seq 0 3))
  /\ List.length (drop 2 Dtlz3Inputs.seven_halves) = 5%nat.
Proof.
  apply (proj1 (@dtlz3_objfun_impl Dtlz3Inputs.taylor_libm 5 3
                  Dtlz3Inputs.three_objectives Dtlz3Inputs.seven_halves
                  ltac:(lia) ltac:(lia) ltac:(vm_compute; discriminate))).
  split; reflexivity.
Defined.

(** A fitness vector of zeros and one of ones give the same objectives. *)
Lemma objfun_impl_overwrites_f_witness :
  @objfun_impl Dtlz3Inputs.taylor_libm true (Problem.dtlz3 5 3)
    Dtlz3Inputs.three_objectives Dtlz3Inputs.seven_halves
  = @objfun_impl Dtlz3Inputs.taylor_libm true (Problem.dtlz3 5 3)
      Dtlz3Inputs.three_ones Dtlz3Inputs.seven_halves.
Proof.
  apply (@objfun_impl_overwrites_f Dtlz3Inputs.taylor_libm true
           (Problem.dtlz3 5 3) Dtlz3Inputs.three_objectives
           Dtlz3Inputs.three_ones Dtlz3Inputs.seven_halves);
    [vm_compute; discriminate | vm_compute; discriminate | reflexivity].
Defined.

(** A last variable of 1.0 and one of 0.0 have the same [g]. *)
Lemma distance_variables_only_through_g_witness :
  @objfun_impl Dtlz3Inputs.taylor_libm true (Problem.dtlz3 5 3)
    Dtlz3Inputs.three_objectives Dtlz3Inputs.six_halves_and_one
  = @objfun_impl Dtlz3Inputs.taylor_libm true (Problem.dtlz3 5 3)
      Dtlz3Inputs.three_objectives Dtlz3Inputs.six_halves_and_zero.
Proof.
  apply (@distance_variables_only_through_g Dtlz3Inputs.taylor_libm true
           (Problem.dtlz3 5 3) Dtlz3Inputs.three_objectives
           Dtlz3Inputs.six_halves_and_one Dtlz3Inputs.six_halves_and_zero);
    [vm_compute; discriminate | vm_compute; discriminate
     | vm_compute; discriminate | reflexivity | reflexivity
     | vm_compute; reflexivity].
Defined.

(** ** Exact products and sums *)

(** A mantissa of 53 digits followed by [t] zero bits is rounded to itself:
    the shift drops the zero bits and adds [t] to the exponent. *)
Lemma binary_round_aux_exact (sx : bool) (mz p : positive) (ez t : Z) :
  Zpos (digits2_pos mz) = 53 -> 0 <= t ->
  Zpos p = Zpos mz * 2 ^ t ->
  -1074 <= ez + t <= 971 ->
  binary_round_aux 53 1024 sx (Zpos p) ez loc_Exact
  = S754_finite sx mz (ez + t).
Proof.
  intros Hd Ht Hp He.
  destruct (digits2_pos_bounds mz) as [Hlow Hhigh]. rewrite Hd in Hlow, Hhigh.
  assert (Hpow : 0 < 2 ^ t) by (apply Z.pow_pos_nonneg; lia).
  assert (Hdp : Zpos (digits2_pos p) = 53 + t).
  { apply digits2_pos_unique. rewrite Hp.
    replace (53 + t - 1) with (53 - 1 + t) by lia.
    rewrite !Z.pow_add_r by lia. nia. }
  unfold binary_round_aux.
  assert (Hshift : shr_fexp 53 1024 (Zpos p) ez loc_Exact
                   = (Build_shr_record (Zpos mz) false false, ez + t)).
  { unfold shr_fexp. cbn [Zdigits2 shr_record_of_loc]. rewrite Hdp.
    replace (fexp 53 1024 (53 + t + ez) - ez) with t
      by (unfold fexp, emin; lia).
    destruct t as [| q | q]; [| | lia].
    - cbn [shr]. rewrite Z.add_0_r. do 2 f_equal.
      change (2 ^ 0) with 1 in Hp. lia.
    - cbn [shr]. rewrite iter_pos_nat. f_equal.
      pose proof (shr_iter_nonneg (Zpos p) (Pos.to_nat q) ltac:(lia)) as Hiter.
      cbn zeta in Hiter. rewrite positive_nat_Z in Hiter.
      destruct (Nat.iter (Pos.to_nat q) shr_1 _) as [x r s].
      cbn [shr_m shr_r shr_s] in Hiter. destruct Hiter as [Hx Hrs].
      rewrite Hp in Hx, Hrs. rewrite Z.div_mul in Hx by lia.
      destruct (Hrs (Z.mod_mul (Zpos mz) (2 ^ Zpos q) ltac:(lia)))
        as [-> ->].
      subst x. reflexivity. }
  rewrite Hshift. cbn [shr_m loc_of_shr_record round_nearest_even].
  rewrite (shr_fexp_canonical mz (ez + t) Hd) by lia.
  cbn [shr_m].
  replace (ez + t <=? 1024 - 53) with true by (symmetry; apply Z.leb_le; lia).
  reflexivity.
Qed.

(** [(double) n] is zero or a normal number of positive sign, for
    [0 <= n < 2^53]. *)
Lemma of_Z_cases (n : Z) :
  0 <= n < 2 ^ 53 ->
  (n = 0 /\ Double.of_Z n = S754_zero false)
  \/ exists mn en,
       Double.of_Z n = S754_finite false mn en
       /\ -52 <= en <= 0
       /\ Zpos mn = n * 2 ^ (- en)
       /\ Zpos (digits2_pos mn) = 53.
Proof.
  intros Hn. destruct (Z.eq_dec n 0) as [-> | Hn0].
  - left. split; reflexivity.
  - right. apply of_Z_exact. lia.
Qed.

(** Multiplying by [2^(-j)] lowers the exponent by [j]. *)
Lemma mul_two_to_minus_exact (j : Z) (mz : positive) (ez : Z) :
  Zpos (digits2_pos mz) = 53 -> -1074 <= ez - j <= 971 ->
  Double.mul (two_to_minus j) (S754_finite false mz ez)
  = S754_finite false mz (ez - j).
Proof.
  intros Hd He.
  unfold Double.mul, two_to_minus, SFmul, Double.prec, Double.emax.
  cbn [xorb].
  rewrite (binary_round_aux_exact false mz (4503599627370496 * mz)
             (-52 - j + ez) 52 Hd);
    [f_equal; lia | lia | | lia].
  rewrite Pos2Z.inj_mul. change (2 ^ 52) with 4503599627370496. lia.
Qed.

Lemma two_to_minus_not_above_one (j : Z) :
  0 <= j -> Double.gtb (two_to_minus j) Double.one = false.
Proof.
  intros Hj. unfold Double.gtb, Double.ltb, SFltb, SFcompare, Double.one,
    two_to_minus.
  destruct (Z.compare_spec (-52) (-52 - j)) as [Heq | Hlt | Hgt];
    [| lia | reflexivity].
  rewrite Pos.compare_cont_refl. reflexivity.
Qed.

(** X10: with no absolute rate and the fractional rate [2^(-j)] (1.0, 0.5,
    0.25, ...), the call returns the population size divided by [2^j],
    rounded down: the product is exact and the conversion to [int] drops
    the fraction (for populations of fewer than [2^31] individuals). *)
Theorem power_of_two_fraction_rounds_down
    (self : MigrationSelectionPolicy) (population : Population) (j : Z) :
  migrationRateAbs self < 0 ->
  0 <= j <= 1022 ->
  migrationRateFrac self = two_to_minus j ->
  size population < 2 ^ 31 ->
  getNumberOfIndividualsToMigrate self population
  = Returns (size population / 2 ^ j).
Proof.
  intros Hneg Hj Hrate Hsmall. unfold getNumberOfIndividualsToMigrate.
  assert (Hsize : 0 <= size population) by (unfold size; lia).
  destruct (Z.ltb_spec (migrationRateAbs self) 0) as [_ | Hpos]; [| lia].
  rewrite Hrate, two_to_minus_not_above_one by lia.
  generalize dependent (size population). intros n Hsmall Hsize.
  assert (Hpow : 0 < 2 ^ j) by (apply Z.pow_pos_nonneg; lia).
  assert (Hint : MachineInt.in_int (n / 2 ^ j) = true).
  { unfold MachineInt.in_int, MachineInt.INT_MIN, MachineInt.INT_MAX.
    assert (0 <= n / 2 ^ j <= n).
    { split; [apply Z.div_pos; lia |].
      apply Z.div_le_upper_bound; [lia | nia]. }
    apply andb_true_iff. split; apply Z.leb_le; lia. }
  destruct (of_Z_cases n) as [[-> Hof] | (mn & en & Hof & Hen & Hmn & Hdig)].
  { split; [lia |]. apply Z.lt_trans with (2 ^ 31); [lia | reflexivity]. }
  - rewrite Hof. cbn. rewrite Z.div_0_l by lia. reflexivity.
  - rewrite Hof, (mul_two_to_minus_exact j mn en Hdig) by lia.
    unfold Double.to_int, Double.trunc. cbn [cond_Zopp].
    assert (Hval : (if 0 <=? en - j then Zpos mn * 2 ^ (en - j)
                    else Zpos mn / 2 ^ (- (en - j))) = n / 2 ^ j).
    { destruct (Z.leb_spec 0 (en - j)) as [He0 | He0].
      - replace en with 0 in * by lia. replace j with 0 in * by lia.
        change (2 ^ (- 0)) with 1 in Hmn. change (2 ^ (0 - 0)) with 1.
        change (2 ^ 0) with 1. rewrite Z.div_1_r. lia.
      - rewrite Hmn. replace (- (en - j)) with (j + - en) by lia.
        rewrite Z.pow_add_r by lia.
        apply Z.div_mul_cancel_r; [lia |].
        apply Z.pow_nonzero; lia. }
    rewrite Hval, Hint. reflexivity.
Qed.

(** X11: with no absolute rate and the fractional rate 0.0 (of either
    sign), no individual migrates, whatever the population (of fewer than
    [2^53] individuals): the call returns 0 and throws nothing. *)
Theorem zero_fraction_selects_none
    (self : MigrationSelectionPolicy) (population : Population) (s : bool) :
  migrationRateAbs self < 0 ->
  migrationRateFrac self = S754_zero s ->
  size population < 2 ^ 53 ->
  getNumberOfIndividualsToMigrate self population = Returns 0.
Proof.
  intros Hneg Hrate Hsmall. unfold getNumberOfIndividualsToMigrate.
  assert (Hsize : 0 <= size population) by (unfold size; lia).
  destruct (Z.ltb_spec (migrationRateAbs self) 0) as [_ | Hpos]; [| lia].
  rewrite Hrate.
  replace (Double.gtb (S754_zero s) Double.one) with false
    by (destruct s; reflexivity).
  destruct (of_Z_cases (size population) ltac:(lia))
    as [[_ Hof] | (mn & en & Hof & _)];
    rewrite Hof; reflexivity.
Qed.

(** A quarter of ten individuals: two. *)
Lemma power_of_two_fraction_rounds_down_witness :
  getNumberOfIndividualsToMigrate
    (mkPolicy (-1) (two_to_minus 2)) (Inputs.population_of 10)
  = Returns 2.
Proof.
  apply (power_of_two_fraction_rounds_down
           (mkPolicy (-1) (two_to_minus 2)) (Inputs.population_of 10) 2);
    [reflexivity | lia | reflexivity | reflexivity].
Defined.

(** A rate of -0.0 on ten individuals. *)
Lemma zero_fraction_selects_none_witness :
  getNumberOfIndividualsToMigrate
    (mkPolicy (-1) (S754_zero true)) (Inputs.population_of 10)
  = Returns 0.
Proof.
  apply (zero_fraction_selects_none
           (mkPolicy (-1) (S754_zero true)) (Inputs.population_of 10) true);
    reflexivity.
Defined.

(** *** The distance function at 0.5 *)

Lemma digits2_pos_shifted (mz p : positive) (t : Z) :
  Zpos (digits2_pos mz) = 53 -> 0 <= t -> Zpos p = Zpos mz * 2 ^ t ->
  Zpos (digits2_pos p) = 53 + t.
Proof.
  intros Hd Ht Hp.
  destruct (digits2_pos_bounds mz) as [Hlow Hhigh]. rewrite Hd in Hlow, Hhigh.
  assert (Hpow : 0 < 2 ^ t) by (apply Z.pow_pos_nonneg; lia).
  apply digits2_pos_unique. rewrite Hp.
  replace (53 + t - 1) with (53 - 1 + t) by lia.
  rewrite !Z.pow_add_r by lia. nia.
Qed.

(** Normalising a mantissa of 53 digits followed by [t] zero bits. *)
Lemma binary_round_exact (sx : bool) (mz p : positive) (ez t : Z) :
  Zpos (digits2_pos mz) = 53 -> 0 <= t ->
  Zpos p = Zpos mz * 2 ^ t ->
  -1074 <= ez + t <= 971 ->
  binary_round 53 1024 sx p ez = S754_finite sx mz (ez + t).
Proof.
  intros Hd Ht Hp He. unfold binary_round.
  rewrite (digits2_pos_shifted mz p t Hd Ht Hp).
  replace (fexp 53 1024 (53 + t + ez)) with (ez + t)
    by (unfold fexp, emin; lia).
  unfold shl_align.
  destruct (ez + t - ez) as [| q | q] eqn:Hshift; [| | lia];
    apply binary_round_aux_exact; assumption.
Qed.

Lemma shl_align_value (mx : positive) (ex ex' : Z) :
  ex' <= ex ->
  shl_align mx ex ex'
  = (fst (shl_align mx ex ex'), ex')
  /\ Zpos (fst (shl_align mx ex ex')) = Zpos mx * 2 ^ (ex - ex').
Proof.
  intros Hle. unfold shl_align.
  destruct (ex' - ex) as [| d | d] eqn:Hshift; [| lia |]; cbn [fst].
  - replace ex' with ex by lia. rewrite Z.sub_diag.
    change (2 ^ 0) with 1. split; [reflexivity | lia].
  - split; [reflexivity |]. rewrite pos_iter_xO. do 2 f_equal. lia.
Qed.

(** Subtracting 1.0 from [- j] gives [- (j + 1)], exactly. *)
Lemma add_minus_one_exact (j : Z) :
  0 < j -> j + 1 < 2 ^ 53 ->
  add (SFopp (Double.of_Z j)) (SFopp Double.one)
  = SFopp (Double.of_Z (j + 1)).
Proof.
  intros Hj Hj1.
  assert (Hrange : 0 < j < 2 ^ 53 /\ 0 < j + 1 < 2 ^ 53) by lia.
  destruct Hrange as [Hrange Hrange'].
  destruct (of_Z_exact j Hrange) as (m & e & -> & He & Hm & Hd).
  destruct (of_Z_exact (j + 1) Hrange') as (m' & e' & -> & He' & Hm' & Hd').
  unfold add, SFadd, Double.one, Double.prec, Double.emax.
  cbn [SFopp negb].
  replace (Z.min e (-52)) with (-52) by lia.
  destruct (shl_align_value m e (-52) ltac:(lia)) as [_ Hvalue].
  change (shl_align 4503599627370496 (-52) (-52))
    with (4503599627370496%positive, -52).
  cbn [fst cond_Zopp].
  change (- Zpos ?a + - Zpos ?b) with (Zneg (a + b)).
  cbn [binary_normalize].
  rewrite (binary_round_exact true m' _ (-52) (e' + 52) Hd'); [| lia | | lia].
  - f_equal. lia.
  - assert (Hpow : 2 ^ (- e) * 2 ^ (e - -52) = 4503599627370496)
      by (rewrite <- Z.pow_add_r by lia;
          replace (- e + (e - -52)) with 52 by lia; reflexivity).
    assert (Hpow' : 2 ^ (- e') * 2 ^ (e' + 52) = 4503599627370496)
      by (rewrite <- Z.pow_add_r by lia;
          replace (- e' + (e' + 52)) with 52 by lia; reflexivity).
    rewrite Pos2Z.inj_add, Hvalue, Hm, Hm', <- !Z.mul_assoc, Hpow, Hpow'.
    lia.
Qed.

(** [- k + k] is [+0.0]. *)
Lemma add_opp_exact (k : Z) :
  0 < k < 2 ^ 53 ->
  add (SFopp (Double.of_Z k)) (Double.of_Z k) = Double.zero.
Proof.
  intros Hk.
  destruct (of_Z_exact k Hk) as (m & e & -> & _).
  unfold add, SFadd. cbn [SFopp negb]. rewrite Z.min_id.
  unfold shl_align. rewrite Z.sub_diag. cbn [fst cond_Zopp].
  rewrite Z.add_opp_diag_l. reflexivity.
Qed.

Section DistanceFunctionProperties.

Context `{Libm}.

Hypothesis cos_zero : cos Double.zero = Double.one.
Hypothesis pow_zero : pow Double.zero 2 = Double.zero.

(** At 0.5 a variable contributes [0 - 1] to the sum. *)
Lemma summand_at_half :
  sub (pow (sub half half) 2)
      (cos (mul (mul (Double.of_Z 20) pi) (sub half half)))
  = SFopp Double.one.
Proof.
  change (sub half half) with Double.zero.
  change (mul (mul (Double.of_Z 20) pi) Double.zero) with Double.zero.
  rewrite cos_zero, pow_zero. reflexivity.
Qed.

Lemma sum_at_half (k : nat) :
  Z.of_nat (S k) < 2 ^ 53 ->
  fold_left
    (fun (y xi : Double.double) =>
       add y (sub (pow (sub xi half) 2)
                  (cos (mul (mul (Double.of_Z 20) pi) (sub xi half)))))
    (repeat half (S k)) Double.zero
  = SFopp (Double.of_Z (Z.of_nat (S k))).
Proof.
  induction k as [| k IH]; intros Hk.
  - cbn [repeat fold_left]. rewrite summand_at_half. reflexivity.
  - change (repeat half (S (S k))) with (half :: repeat half (S k)).
    rewrite repeat_cons, fold_left_app, IH by lia.
    cbn [fold_left]. rewrite summand_at_half.
    rewrite add_minus_one_exact by lia. do 2 f_equal. lia.
Qed.

(** X12: where every variable is 0.5 the distance function vanishes: with
    a math library for which [cos(0.0)] is 1.0 and [pow(0.0, 2)] is 0.0,
    [g_func] returns exactly [+0.0] on a vector of fewer than [2^53]
    entries that are all 0.5; the sum of the [-1.0] contributions and the
    conversion of [x.size()] are exact and cancel. *)
Theorem g_func_vanishes_at_half (k : nat) :
  Z.of_nat k < 2 ^ 53 ->
  g_func (repeat half k) = Double.zero.
Proof.
  intros Hk. unfold g_func, vsize. rewrite repeat_length.
  destruct k as [| k]; [reflexivity |].
  rewrite sum_at_half by exact Hk.
  rewrite add_opp_exact by lia. reflexivity.
Qed.

End DistanceFunctionProperties.

(** Five variables at 0.5, with the Taylor polynomials. *)
Lemma g_func_vanishes_at_half_witness :
  @g_func Dtlz3Inputs.taylor_libm (repeat half 5) = Double.zero.
Proof.
  apply (@g_func_vanishes_at_half Dtlz3Inputs.taylor_libm
           ltac:(reflexivity) ltac:(reflexivity) 5).
  reflexivity.
Defined.

(** ** The dimensions of DTLZ3 for every [k] *)

(** Converting to [size_t] first does not change the [int] that comes
    out: [2^64] is a multiple of [2^32]. *)
Lemma to_int_to_size_t (z : Z) :
  MachineInt.to_int (MachineInt.to_size_t z) = MachineInt.to_int z.
Proof.
  unfold MachineInt.to_int, MachineInt.to_size_t. f_equal.
  rewrite Z.add_mod by discriminate.
  rewrite (Z.mod_mod_divide z (2 ^ 64) (2 ^ 32))
    by (exists (2 ^ 32); reflexivity).
  rewrite <- Z.add_mod by discriminate. reflexivity.
Qed.

Lemma dtlz3_sum_modulo (k fdim : Z) :
  MachineInt.to_size_t
    (MachineInt.to_size_t (MachineInt.to_size_t k + fdim)
     - MachineInt.to_size_t 1)
  = MachineInt.to_size_t (k + fdim - 1).
Proof.
  unfold MachineInt.to_size_t.
  rewrite Zplus_mod_idemp_l, Zminus_mod_idemp_l, Zminus_mod_idemp_r.
  reflexivity.
Qed.

(** X13: for every [k] and [fdim], the decision dimension that
    [dtlz3(k, fdim)] hands to [base] is [k + fdim - 1] brought into the
    range of [int] modulo [2^32], and the objective dimension is [fdim]
    brought into that range; so the dimension is [k + fdim - 1] itself
    whenever that is an [int], also for [k <= 0], where the conversion of
    [k] to [size_t] and the conversion of the sum back cancel. *)
Theorem dtlz3_dimension_modulo (k fdim : Z) :
  Problem.get_dimension (Problem.dtlz3 k fdim)
  = MachineInt.to_int (k + fdim - 1)
  /\ Problem.get_f_dimension (Problem.dtlz3 k fdim) = MachineInt.to_int fdim
  /\ (MachineInt.in_int (k + fdim - 1) = true ->
      Problem.get_dimension (Problem.dtlz3 k fdim) = k + fdim - 1).
Proof.
  assert (Hdim : Problem.get_dimension (Problem.dtlz3 k fdim)
                 = MachineInt.to_int (k + fdim - 1)).
  { unfold Problem.dtlz3, Problem.get_dimension.
    cbn [Problem.set_ub Problem.set_lb Problem.base_ctor Problem.m_dimension].
    rewrite dtlz3_sum_modulo. apply to_int_to_size_t. }
  split; [exact Hdim |]. split; [reflexivity |].
  intros Hint. rewrite Hdim. apply to_int_small.
  unfold MachineInt.in_int, MachineInt.INT_MIN, MachineInt.INT_MAX in Hint.
  apply andb_true_iff in Hint. destruct Hint as [Hlow Hhigh].
  apply Z.leb_le in Hlow, Hhigh. lia.
Qed.

(** [dtlz3(-2, 5)] has two decision variables. *)
Lemma dtlz3_dimension_modulo_witness :
  Problem.get_dimension (Problem.dtlz3 (-2) 5) = 2.
Proof.
  apply (proj2 (proj2 (dtlz3_dimension_modulo (-2) 5))). reflexivity.
Defined.
